(** * Trading session engine (trading_core.py): shallow embedding

    The development follows [src/trading_core.py]:
    - [_round_to_next_interval]   the interval clock (lines 44-57),
    - [calculate_supertrend]      the trend-following band (lines 61-86),
    - [start_trading_session]     initialisation (lines 199-305), the wait
                                  for market open (308-311) and the live
                                  loop (316-485),
    the adapter the session runs on, [src/upstox.py] (the adapter's copy of
    the clock, the order payload, the option lookup and the latest-minute
    quote), and the routes that start, stop and query a session,
    [src/broker_routes.py].

    Modelling conventions.
    - A Python [datetime] is a record: the proleptic ordinal of its date,
      the microseconds elapsed since midnight, and whether [tzinfo] is set.
      Every aware datetime of this program lives in Asia/Kolkata, so two
      aware datetimes compare and subtract like their civil times.  Python
      raises [TypeError] when a naive and an aware datetime are subtracted
      or ordered; the embedding returns [Raise TypeError] there.
    - Python floats holding prices and indicator values are rationals
      ([Q]) and their comparisons are the comparisons of [Q]; only finite,
      non-NaN values occur after [dropna].  What is proved about the band
      is proved from the loop body, for any raw bands, so it does not
      depend on how [hl2 + multiplier * atr] is rounded.
    - pandas and ta (resampling, ADX, Williams %R, MACD, ATR, [dropna], the
      25-day filter) are functions handed to the session; the wall clock
      and the broker adapter form the environment, a type class.
    - The session is a computation in a monad that threads the environment,
      records each call that leaves the coroutine in a trace, in order, and
      propagates exceptions. *)

From Stdlib Require Import ZArith QArith Bool String Ascii List Lia.
From Stdlib Require Import Qround Lqa DecimalString Sorted.
Import ListNotations.
Open Scope Z_scope.

(** ** Exceptions and the result monad *)

Inductive exn : Type :=
| TypeError
| ZeroDivisionError
| OverflowError.

Inductive result (A : Type) : Type :=
| Ok (a : A)
| Raise (e : exn).
Arguments Ok {A} a.
Arguments Raise {A} e.

Definition rbind {A B} (r : result A) (k : A -> result B) : result B :=
  match r with
  | Ok a => k a
  | Raise e => Raise e
  end.

Declare Scope result_scope.
Delimit Scope result_scope with result.
Notation "'let!' x ':=' r 'in' k" := (rbind r (fun x => k))
  (at level 10, x name, r at level 100, k at level 200) : result_scope.
Open Scope result_scope.

(** ** Datetimes *)

Module DT.

Definition us_per_second : Z := 1000000.
Definition us_per_minute : Z := 60 * us_per_second.
Definition us_per_day : Z := 86400 * us_per_second.

(** [date.min.toordinal()] and [date.max.toordinal()]. *)
Definition min_ordinal : Z := 1.
Definition max_ordinal : Z := 3652059.

Record datetime : Type := mk {
  day : Z;        (* date().toordinal() *)
  us : Z;         (* microseconds since midnight *)
  aware : bool    (* tzinfo is not None *)
}.

(** Microseconds since the start of ordinal day 0. *)
Definition instant (d : datetime) : Z := day d * us_per_day + us d.

(** [datetime.time(h, m)] as microseconds since midnight. *)
Definition time_of (h m : Z) : Z := (h * 60 + m) * us_per_minute.

(** [datetime.datetime.combine(date, time)]: the result is naive. *)
Definition combine (date : Z) (time : Z) : datetime :=
  {| day := date; us := time; aware := false |}.

(** [a - b] in microseconds. *)
Definition sub (a b : datetime) : result Z :=
  if Bool.eqb (aware a) (aware b) then Ok (instant a - instant b)
  else Raise TypeError.

(** [a < b], [a > b], [a >= b]. *)
Definition lt (a b : datetime) : result bool :=
  if Bool.eqb (aware a) (aware b) then Ok (instant a <? instant b)
  else Raise TypeError.
Definition gt (a b : datetime) : result bool := lt b a.
Definition ge (a b : datetime) : result bool :=
  if Bool.eqb (aware a) (aware b) then Ok (instant b <=? instant a)
  else Raise TypeError.

(** [d + datetime.timedelta(minutes=m)]. *)
Definition add_minutes (d : datetime) (m : Z) : result datetime :=
  let total := us d + m * us_per_minute in
  let day' := day d + total / us_per_day in
  if (min_ordinal <=? day') && (day' <=? max_ordinal)
  then Ok {| day := day'; us := total mod us_per_day; aware := aware d |}
  else Raise OverflowError.

(** [d.replace(microsecond=0)]. *)
Definition replace_microsecond0 (d : datetime) : datetime :=
  {| day := day d; us := us d - us d mod us_per_second; aware := aware d |}.

(** [ist.localize(d)] for a naive [d]; [dt if dt.tzinfo else ist.localize(dt)]. *)
Definition ensure_aware (d : datetime) : datetime :=
  {| day := day d; us := us d; aware := true |}.

End DT.

Abbreviation datetime := DT.datetime.

(** ** The interval clock *)

(** An [int] too large for [float(...)]: it rounds to 2^1024 or beyond. *)
Definition float_overflows (n : Z) : bool :=
  2 ^ 1024 - 2 ^ 970 <=? Z.abs n.

Definition market_open : Z := DT.time_of 9 15.
Definition market_close : Z := DT.time_of 15 31.

(** Lines 44-57.  [elapsed] is kept in microseconds: [total_seconds()] is
    that integer divided by 10^6, and the float floor division by the
    whole number [interval_minutes * 60] agrees with the integer one. *)
Definition _round_to_next_interval (interval_minutes : Z) (now_dt : datetime)
  : result datetime :=
  let base := DT.combine (DT.day now_dt) market_open in
  let! elapsed := DT.sub now_dt base in
  if elapsed <? 0 then Ok (DT.replace_microsecond0 base)
  else if interval_minutes * 60 =? 0 then Raise ZeroDivisionError
  else if float_overflows (interval_minutes * 60) then Raise OverflowError
  else
    let intervals_passed := elapsed / (interval_minutes * 60 * DT.us_per_second) in
    let! next_interval :=
      DT.add_minutes base ((intervals_passed + 1) * interval_minutes) in
    Ok (DT.replace_microsecond0 next_interval).

(** ** The trend-following band *)

(** Python's [a < b] on two finite floats. *)
Definition Qltb (a b : Q) : bool := negb (Qle_bool b a).

Record candle : Type := mkCandle {
  c_datetime : datetime;
  c_open : Q;
  c_high : Q;
  c_low : Q;
  c_close : Q
}.

(** One index of the three series the loop of lines 72-83 maintains:
    [supertrend_values[i]], [final_upperband[i]], [final_lowerband[i]]. *)
Record band : Type := mkBand {
  bullish : bool;
  final_upper : Q;
  final_lower : Q
}.

(** Lines 64-66 at one row, given that row's average true range. *)
Definition raw_band (multiplier : Q) (row : candle * Q) : band :=
  let (c, atr) := row in
  let hl2 := ((c_high c + c_low c) / 2)%Q in
  {| bullish := true;
     final_upper := (hl2 + multiplier * atr)%Q;
     final_lower := (hl2 - multiplier * atr)%Q |}.

(** The body of the loop (lines 73-83) at index [i]: [prev] holds the three
    series at [i - 1] (already adjusted), [raw] the copied bands at [i]. *)
Definition band_step (prev : band) (close : Q) (raw : band) : band :=
  if Qltb (final_upper prev) close then
    {| bullish := true; final_upper := final_upper raw; final_lower := final_lower raw |}
  else if Qltb close (final_lower prev) then
    {| bullish := false; final_upper := final_upper raw; final_lower := final_lower raw |}
  else
    let st := bullish prev in
    {| bullish := st;
       final_upper :=
         if negb st && Qltb (final_upper prev) (final_upper raw)
         then final_upper prev else final_upper raw;
       final_lower :=
         if st && Qltb (final_lower raw) (final_lower prev)
         then final_lower prev else final_lower raw |}.

Fixpoint band_loop (prev : band) (rows : list (Q * band)) : list band :=
  match rows with
  | [] => []
  | (close, raw) :: rest =>
      let cur := band_step prev close raw in
      cur :: band_loop cur rest
  end.

(** The three series after the loop; index 0 keeps the raw bands and the
    default bullish state. *)
Definition supertrend_bands (multiplier : Q) (df : list candle) (atr : list Q)
  : list band :=
  match List.combine df atr with
  | [] => []
  | r0 :: rest =>
      let b0 := raw_band multiplier r0 in
      b0 :: band_loop b0 (map (fun r => (c_close (fst r), raw_band multiplier r)) rest)
  end.

(** Line 85: the reported value of one index. *)
Definition band_value (b : band) : Q :=
  if bullish b then final_lower b else final_upper b.

(** [calculate_supertrend]: the new column [df['supertrend']].  [atr] is
    the series ta's [AverageTrueRange(...).average_true_range()] returns
    for [df], one value per row. *)
Definition calculate_supertrend (multiplier : Q) (df : list candle) (atr : list Q)
  : list Q :=
  map band_value (supertrend_bands multiplier df atr).

(** ** Session data *)

Record position : Type := mkPosition {
  quantity : Z;
  tradingsymbol : string;
  instrument_token : string
}.

Record option_details : Type := mkOptionDetails {
  od_instrument_key : string;
  od_lot_size : Z;
  od_strike : Q;
  od_expiry_date : Z
}.

(** The latest row of the indicator frame (lines 387-394). *)
Record indicator_row : Type := mkRow {
  adx : Q;
  adxema : Q;
  willr : Q;
  supertrend : Q;
  macd : Q;
  macd_signal : Q;
  close_price : Q
}.

(** The texts handed to [send_telegram_message_async]. *)
Inductive notice : Type :=
| AbortedNoHistorical
| AbortedNotEnoughData
| AbortedEmptyBuffer
| SessionStarted
| SessionEnded
| BuySignalGenerated
| SellSignalGenerated
| ExitTriggered (symbol : string).

(** Calls that leave the coroutine, in the order they are made. *)
Inductive event : Type :=
| LogOrderToExcel (order_type instrument_key : string) (price : Q) (lots : Z)
    (strike : Q) (option_type : string) (lot_size : Z) (first_expiry : Z)
| SendTelegram (n : notice)
| UpdatePnl (number : Z)
| Sleep (seconds : Z)
| FetchHistoricalData (instrument_key : string) (interval : Z)
| FetchIntradayData (instrument_key : string) (interval : Z)
| FetchOhlc1Min (instrument_key : string)
| FetchPositions
| GetOptionInstrumentKey (spot : Q) (option_type index_name : string) (interval : Z)
| PlaceOrder (instrument : string) (qty : Z) (transaction_type : string) (price : Q).


Definition is_fetch_positions (ev : event) : bool :=
  match ev with
  | FetchPositions => true
  | _ => false
  end.

(** ** Strings *)

Definition chars (s : string) : list ascii := list_ascii_of_string s.

(** [s[-2:]] *)
Definition last_two (s : string) : string :=
  string_of_list_ascii (rev (firstn 2 (rev (chars s)))).

Fixpoint is_prefix (p l : list ascii) : bool :=
  match p, l with
  | [], _ => true
  | a :: p', b :: l' => Ascii.eqb a b && is_prefix p' l'
  | _ :: _, [] => false
  end.

(** [s.endswith(suffix)] *)
Definition endswith (s suffix : string) : bool :=
  is_prefix (rev (chars suffix)) (rev (chars s)).

(** ** Rolling buffers: [deque(maxlen=2000)] *)

Definition maxlen : nat := 2000.

Definition deque_append (buf : list candle) (c : candle) : list candle :=
  let buf' := buf ++ [c] in
  skipn (length buf' - maxlen) buf'.

(** [buf[-1]['datetime']], when [buf] is not empty. *)
Definition tail_time (buf : list candle) : option datetime :=
  match rev buf with
  | [] => None
  | c :: _ => Some (c_datetime c)
  end.

(** The row conversion of lines 221-228, 236-243 and 287-294. *)
Definition localized (c : candle) : candle :=
  {| c_datetime := DT.ensure_aware (c_datetime c);
     c_open := c_open c; c_high := c_high c; c_low := c_low c; c_close := c_close c |}.

(** [for dt, row in frame.iterrows(): buf.append({...})] *)
Definition append_rows (buf : list candle) (frame : list candle) : list candle :=
  fold_left (fun b c => deque_append b (localized c)) frame buf.

(** ** The environment: wall clock and broker adapter *)

Class Environment (W : Type) : Type := {
  (* datetime.datetime.now(ist) *)
  clock_now : W -> datetime * W;
  (* datetime.date.today() *)
  date_today : W -> Z;
  (* asyncio.sleep(seconds) *)
  pass_time : Z -> W -> W;
  (* a DataFrame is the list of its rows; [.empty] is [[]] *)
  fetch_historical_data : string -> Z -> W -> list candle * W;
  fetch_intraday_data : string -> Z -> W -> option (list candle) * W;
  (* a falsy answer ([None] or an empty dict) is [None] *)
  fetch_ohlc_1min_data : string -> W -> option candle * W;
  fetch_positions : W -> list position * W;
  get_option_instrument_key : Q -> string -> string -> Z -> W -> option option_details * W;
  place_order : string -> Z -> string -> Q -> W -> W
}.

(** ** The session monad: world, trace of calls, exceptions *)

Record env (W : Type) : Type := mkEnv {
  world : W;
  trace : list event
}.
Arguments mkEnv {W} world trace.
Arguments world {W} e.
Arguments trace {W} e.

Definition M (W A : Type) : Type := env W -> result A * env W.

Definition ret {W A} (a : A) : M W A := fun e => (Ok a, e).

Definition bind {W A B} (m : M W A) (k : A -> M W B) : M W B :=
  fun e =>
    match m e with
    | (Ok a, e') => k a e'
    | (Raise x, e') => (Raise x, e')
    end.

Definition lift {W A} (r : result A) : M W A := fun e => (r, e).

Definition emit {W} (ev : event) : M W unit :=
  fun e => (Ok tt, mkEnv (world e) (trace e ++ [ev])).

(** A call into the environment that returns an answer. *)
Definition ask {W A} (ev : event) (f : W -> A * W) : M W A :=
  fun e =>
    let (a, w') := f (world e) in
    (Ok a, mkEnv w' (trace e ++ [ev])).

(** A call into the environment made for its effect. *)
Definition tell {W} (ev : event) (f : W -> W) : M W unit :=
  fun e => (Ok tt, mkEnv (f (world e)) (trace e ++ [ev])).

(** A reading that leaves no entry in the trace. *)
Definition peek {W A} (f : W -> A * W) : M W A :=
  fun e =>
    let (a, w') := f (world e) in
    (Ok a, mkEnv w' (trace e)).

Declare Scope session_scope.
Delimit Scope session_scope with session.
Notation "x <- m ;; k" := (bind m (fun x => k))
  (at level 61, m at next level, right associativity) : session_scope.
Notation "m ;;; k" := (bind m (fun _ => k))
  (at level 61, right associativity) : session_scope.

Fixpoint for_each {W A} (l : list A) (body : A -> M W unit) : M W unit :=
  match l with
  | [] => ret tt
  | a :: l' => bind (body a) (fun _ => for_each l' body)
  end.

(** [[c for c in l if c.datetime > t]], evaluated left to right. *)
Fixpoint newer_than (t : datetime) (l : list candle) : result (list candle) :=
  match l with
  | [] => Ok []
  | c :: l' =>
      let! keep := DT.gt (c_datetime c) t in
      let! rest := newer_than t l' in
      Ok (if keep then c :: rest else rest)
  end.

(** ** Signals (lines 402-405 and 462-473) *)

Definition buy_signal (r : indicator_row) : bool :=
  Qltb (adxema r) (adx r) && Qltb (-30) (willr r) &&
  Qltb (supertrend r) (close_price r) && Qltb (macd_signal r) (macd r).

Definition sell_signal (r : indicator_row) : bool :=
  Qltb (adxema r) (adx r) && Qltb (willr r) (-70) &&
  Qltb (close_price r) (supertrend r) && Qltb (macd r) (macd_signal r).

Definition has_ce_position (positions : list position) : bool :=
  existsb (fun pos => (0 <? quantity pos) && endswith (tradingsymbol pos) "CE") positions.

Definition has_pe_position (positions : list position) : bool :=
  existsb (fun pos => (0 <? quantity pos) && endswith (tradingsymbol pos) "PE") positions.

Definition exit_ce (r : indicator_row) (option_type : string) : bool :=
  String.eqb option_type "CE" &&
  ((Qltb (willr r) (-70) && Qltb (close_price r) (supertrend r)) ||
   (Qltb (willr r) (-70) && Qltb (macd r) (macd_signal r)) ||
   (Qltb (close_price r) (supertrend r) && Qltb (macd r) (macd_signal r))).

Definition exit_pe (r : indicator_row) (option_type : string) : bool :=
  String.eqb option_type "PE" &&
  ((Qltb (-30) (willr r) && Qltb (supertrend r) (close_price r)) ||
   (Qltb (-30) (willr r) && Qltb (macd_signal r) (macd r)) ||
   (Qltb (supertrend r) (close_price r) && Qltb (macd r) (macd_signal r))).

(** The test of line 475 for one position of the snapshot. *)
Definition exit_triggered (r : indicator_row) (pos : position) : bool :=
  let option_type := last_two (tradingsymbol pos) in
  exit_ce r option_type || exit_pe r option_type.

(** ** The session *)

Record session : Type := mkSession {
  candle_buffer : list candle;
  live_buffer : list candle;
  prev_time : datetime;
  next_interval_end_1min : datetime;
  next_resample_interval_end : datetime
}.

Inductive control : Type :=
| Continue
| Break.

Inductive ending : Type :=
| Aborted          (* an early [return] of the initialisation *)
| MarketClosed     (* the [break] of line 324 *)
| StillRunning.    (* the modelled number of passes is used up *)

Section Session.

Context {W : Type} {E : Environment W}.

(** pandas and ta. [indicators initial buf] is the frame left after
    [dropna] and the 25-day filter (lines 249-260 when [initial], lines
    374-384 otherwise); [resample n buf] is the frame of lines 345-353. *)
Variable indicators : bool -> list candle -> list indicator_row.
Variable resample : Z -> list candle -> list candle.

Variables (index_name instrument_key_index : string) (interval lots : Z).

Open Scope session_scope.

(** [datetime.datetime.now(ist)] *)
Definition now_ist : M W datetime := peek clock_now.

Definition sleep (seconds : Z) : M W unit := tell (Sleep seconds) (pass_time seconds).

(** The entry side of one evaluation (lines 407-454). *)
Definition enter (row : indicator_row) (positions : list position) : M W unit :=
  let close_price := close_price row in
  if buy_signal row then
    emit (SendTelegram BuySignalGenerated) ;;;
    if negb (has_ce_position positions) then
      details <- ask (GetOptionInstrumentKey close_price "CE" index_name interval)
                     (get_option_instrument_key close_price "CE" index_name interval) ;;
      match details with
      | Some d =>
          let qty := lots * od_lot_size d in
          tell (PlaceOrder (od_instrument_key d) qty "BUY" close_price)
               (place_order (od_instrument_key d) qty "BUY" close_price) ;;;
          emit (LogOrderToExcel "BUY" (od_instrument_key d) close_price lots
                  (od_strike d) "CE" (od_lot_size d) (od_expiry_date d))
      | None => ret tt
      end
    else ret tt
  else if sell_signal row then
    emit (SendTelegram SellSignalGenerated) ;;;
    if negb (has_pe_position positions) then
      details <- ask (GetOptionInstrumentKey close_price "PE" index_name interval)
                     (get_option_instrument_key close_price "PE" index_name interval) ;;
      match details with
      | Some d =>
          let qty := lots * od_lot_size d in
          tell (PlaceOrder (od_instrument_key d) qty "BUY" close_price)
               (place_order (od_instrument_key d) qty "BUY" close_price) ;;;
          emit (LogOrderToExcel "BUY" (od_instrument_key d) close_price lots
                  (od_strike d) "PE" (od_lot_size d) (od_expiry_date d))
      | None => ret tt
      end
    else ret tt
  else ret tt.

(** The body of the exit loop for one position (lines 458-480). *)
Definition exit_position (row : indicator_row) (pos : position) : M W unit :=
  if 0 <? quantity pos then
    if exit_triggered row pos then
      emit (SendTelegram (ExitTriggered (tradingsymbol pos))) ;;;
      tell (PlaceOrder (instrument_token pos) (quantity pos) "SELL" 0)
           (place_order (instrument_token pos) (quantity pos) "SELL" 0) ;;;
      emit (UpdatePnl 2)
    else ret tt
  else ret tt.

(** One evaluation (lines 400-480): the snapshot is fetched, then the entry
    rule runs, then the exit loop runs over the same snapshot. *)
Definition evaluate (row : indicator_row) : M W unit :=
  positions <- ask FetchPositions fetch_positions ;;
  enter row positions ;;;
  for_each positions (exit_position row).

(** Lines 355-371: the resampled candles newer than [prev_time] go to the
    main buffer and the marker moves to the newest of them. *)
Definition take_resampled (s : session) (resampled : list candle)
  : result (list candle * datetime) :=
  match resampled with
  | [] => Ok (candle_buffer s, prev_time s)
  | _ :: _ =>
      let! new_main_candles := newer_than (prev_time s) resampled in
      let buf := fold_left deque_append new_main_candles (candle_buffer s) in
      Ok (buf,
          match tail_time new_main_candles with
          | Some t => t
          | None => prev_time s
          end)
  end.

(** The resample branch of a pass (lines 343-483). *)
Definition resample_cycle (now : datetime) (s : session) : M W session :=
  emit (UpdatePnl 1) ;;;
  bp <- lift (take_resampled s (resample interval (live_buffer s))) ;;
  let (buf, prev) := bp : list candle * datetime in
  (if (2 <=? length buf)%nat then
     let df_filtered := indicators false buf in
     if (2 <=? length df_filtered)%nat then
       match rev df_filtered with
       | latest_candle :: _ => evaluate latest_candle
       | [] => ret tt
       end
     else ret tt
   else ret tt) ;;;
  next <- lift (_round_to_next_interval interval now) ;;
  ret {| candle_buffer := buf;
         live_buffer := live_buffer s;
         prev_time := prev;
         next_interval_end_1min := next_interval_end_1min s;
         next_resample_interval_end := next |}.

(** Line 330-331: the guarded append to the fine buffer. *)
Definition append_live (buf : list candle) (c : candle) : result (list candle) :=
  match tail_time buf with
  | None => Ok (deque_append buf c)
  | Some t =>
      let! newer := DT.gt (c_datetime c) t in
      Ok (if newer then deque_append buf c else buf)
  end.

(** The 1-minute branch of a pass (lines 326-340).  [None] is the
    [continue] of line 340. *)
Definition minute_step (now : datetime) (s : session) : M W (option session) :=
  due <- lift (DT.ge now (next_interval_end_1min s)) ;;
  if due : bool then
    candle <- ask (FetchOhlc1Min instrument_key_index)
                  (fetch_ohlc_1min_data instrument_key_index) ;;
    match candle with
    | Some c =>
        buf <- lift (append_live (live_buffer s) c) ;;
        next <- lift (_round_to_next_interval 1 now) ;;
        ret (Some {| candle_buffer := candle_buffer s;
                     live_buffer := buf;
                     prev_time := prev_time s;
                     next_interval_end_1min := next;
                     next_resample_interval_end := next_resample_interval_end s |})
    | None =>
        sleep 5 ;;;
        ret None
    end
  else ret (Some s).

(** The resample branch with its condition (line 342) and the sleep that
    ends the pass (line 485). *)
Definition resample_step (now : datetime) (s : session) : M W session :=
  due <- lift (DT.ge now (next_resample_interval_end s)) ;;
  s' <- (if (due : bool) && (interval <=? Z.of_nat (length (live_buffer s)))
         then resample_cycle now s else ret s) ;;
  sleep 5 ;;;
  ret s'.

(** One pass of [while True] (lines 317-485). *)
Definition live_pass (s : session) : M W (control * session) :=
  now <- now_ist ;;
  if market_close <=? DT.us now then
    emit (SendTelegram SessionEnded) ;;;
    emit (UpdatePnl 2) ;;;
    ret (Break, s)
  else
    after_minute <- minute_step now s ;;
    match after_minute with
    | None => ret (Continue, s)
    | Some s1 =>
        s2 <- resample_step now s1 ;;
        ret (Continue, s2)
    end.

Fixpoint live_loop (passes : nat) (s : session) : M W ending :=
  match passes with
  | O => ret StillRunning
  | S n =>
      r <- live_pass s ;;
      match r with
      | (Break, _) => ret MarketClosed
      | (Continue, s') => live_loop n s'
      end
  end.







End Session.

(** * Definitions used to state the properties *)

(** The daily origin of the clock: 09:15 of the reference time's date. *)
Definition origin (d : datetime) : datetime := DT.combine (DT.day d) market_open.

(** [m] only appends events, and every appended event satisfies [P]. *)
Definition grows {W A} (m : M W A) (P : event -> Prop) : Prop :=
  forall e, exists evs, trace (snd (m e)) = trace e ++ evs /\ Forall P evs.


(** The calls the exit loop makes for one position of the snapshot. *)
Definition exit_events (r : indicator_row) (pos : position) : list event :=
  if (0 <? quantity pos) && exit_triggered r pos then
    [SendTelegram (ExitTriggered (tradingsymbol pos));
     PlaceOrder (instrument_token pos) (quantity pos) "SELL" 0;
     UpdatePnl 2]
  else [].

(** The calls the entry side can make. *)
Definition is_entry_event (ev : event) : bool :=
  match ev with
  | SendTelegram BuySignalGenerated => true
  | SendTelegram SellSignalGenerated => true
  | GetOptionInstrumentKey _ _ _ _ => true
  | PlaceOrder _ _ transaction_type _ => String.eqb transaction_type "BUY"
  | LogOrderToExcel _ _ _ _ _ _ _ _ => true
  | _ => false
  end.



(** ** A paper broker

    A small concrete environment: the clock stands still unless the
    session sleeps, every fetch answers from a fixed field, a BUY order
    opens a position and a SELL order closes the positions of that
    instrument. *)

Record paper : Type := mkPaper {
  p_now : datetime;
  p_historical : list candle;
  p_intraday : option (list candle);
  p_latest : option candle;
  p_positions : list position;
  p_option : option option_details
}.

Definition paper_sleep (seconds : Z) (w : paper) : paper :=
  {| p_now := DT.mk (DT.day (p_now w))
                    (DT.us (p_now w) + seconds * DT.us_per_second)
                    (DT.aware (p_now w));
     p_historical := p_historical w;
     p_intraday := p_intraday w;
     p_latest := p_latest w;
     p_positions := p_positions w;
     p_option := p_option w |}.

Definition paper_order (instrument : string) (qty : Z) (transaction_type : string)
    (price : Q) (w : paper) : paper :=
  {| p_now := p_now w;
     p_historical := p_historical w;
     p_intraday := p_intraday w;
     p_latest := p_latest w;
     p_positions :=
       if String.eqb transaction_type "BUY"
       then p_positions w ++ [mkPosition qty instrument instrument]
       else filter (fun pos => negb (String.eqb (instrument_token pos) instrument))
                   (p_positions w);
     p_option := p_option w |}.

#[export] Instance paper_environment : Environment paper := {
  clock_now w := (p_now w, w);
  date_today w := DT.day (p_now w);
  pass_time := paper_sleep;
  fetch_historical_data _ _ w := (p_historical w, w);
  fetch_intraday_data _ _ w := (p_intraday w, w);
  fetch_ohlc_1min_data _ w := (p_latest w, w);
  fetch_positions w := (p_positions w, w);
  get_option_instrument_key _ _ _ _ w := (p_option w, w);
  place_order := paper_order
}.

Definition aware_at (h m : Z) : datetime := DT.mk 738000 (DT.time_of h m) true.

Definition flat_candle (t : datetime) : candle := mkCandle t 100 100 100 100.

Definition no_resample (n : Z) (buf : list candle) : list candle := [].

(** ** Concrete data *)

Definition naive_at (h m : Z) : datetime := DT.mk 738000 (DT.time_of h m) false.

(** Two candles: bands 95..105 at the first, close 101 at the second. *)
Definition two_candles : list candle :=
  [ mkCandle (naive_at 9 15) 100 102 98 100;
    mkCandle (naive_at 9 20) 100 103 99 101 ].

Definition band_0 : band := raw_band 3 (mkCandle (naive_at 9 15) 100 102 98 100, 5 # 3).
Definition band_1 : band :=
  band_step band_0 101 (raw_band 3 (mkCandle (naive_at 9 20) 100 103 99 101, 5 # 3)).

Definition nifty : string := "NIFTY".
Definition nifty_key : string := "NSE_INDEX|Nifty 50".

(** Yesterday's last two 5-minute candles, as the adapter returns them. *)
Definition yesterday : list candle :=
  [ flat_candle (DT.mk 737999 (DT.time_of 15 20) false);
    flat_candle (DT.mk 737999 (DT.time_of 15 25) false) ].

Definition calm_row : indicator_row := mkRow 20 25 (-50) 100 0 0 100.
(** adx 30 > adxema 25, willr -20 > -30, supertrend 95 < close 100,
    macd 2 > signal 1. *)
Definition call_row : indicator_row := mkRow 30 25 (-20) 95 2 1 100.

Definition two_rows (initial : bool) (buf : list candle) : list indicator_row :=
  [calm_row; calm_row].



(** 10:00:02, the 1-minute boundary stands at 10:00 and so does the
    resample boundary; the quote service answers nothing. *)
Definition silent_feed : paper :=
  mkPaper (DT.mk 738000 (DT.time_of 10 0 + 2 * DT.us_per_second) true)
          yesterday None None [] None.

Definition due_session : session :=
  {| candle_buffer := map localized yesterday;
     live_buffer := map flat_candle
       [aware_at 9 55; aware_at 9 56; aware_at 9 57; aware_at 9 58; aware_at 9 59];
     prev_time := aware_at 9 50;
     next_interval_end_1min := aware_at 10 0;
     next_resample_interval_end := aware_at 10 0 |}.

(** One open put, and a resolvable call option. *)
Definition open_put : position := mkPosition 50 "NIFTY24500PE" "NSE_FO|1001".
Definition call_option : option_details := mkOptionDetails "NSE_FO|2002" 25 24500 738003.
Definition one_put : paper :=
  mkPaper (aware_at 10 0) yesterday None None [open_put] (Some call_option).

(** * Definitions for the further properties *)

(** A call of [place_order] with transaction type BUY. *)
Definition is_buy_order (ev : event) : bool :=
  match ev with
  | PlaceOrder _ _ transaction_type _ => String.eqb transaction_type "BUY"
  | _ => false
  end.

(** A notification or an instrument lookup. *)
Definition is_notice_or_lookup (ev : event) : bool :=
  match ev with
  | SendTelegram _ => true
  | GetOptionInstrumentKey _ _ _ _ => true
  | _ => false
  end.

(** 15:31:00 on the session day; an empty position book. *)
Definition closing_bell : paper :=
  mkPaper (aware_at 15 31) yesterday None None [] None.

(** 09:57: neither boundary of [due_session] is reached. *)
Definition before_boundary : datetime := aware_at 9 57.

(** One open call and one flat position. *)
Definition open_call : position := mkPosition 75 "NIFTY24500CE" "NSE_FO|3003".
Definition flat_position : position := mkPosition 0 "NIFTY24500PE" "NSE_FO|1001".

(** adx 30 > adxema 25, willr -80 < -70, supertrend 105 > close 100,
    macd 1 < signal 2. *)
Definition put_row : indicator_row := mkRow 30 25 (-80) 105 1 2 100.
Definition put_option : option_details := mkOptionDetails "NSE_FO|4004" 25 24500 738003.
Definition one_call : paper :=
  mkPaper (aware_at 10 0) yesterday None None [open_call] (Some put_option).

(** ** The Upstox adapter (upstox.py) *)

(** Lines 163-169: the adapter's own copy of the interval clock. *)
Definition _round_to_next_interval_local (interval_minutes : Z) (now_dt : datetime)
  : result datetime :=
  let base := DT.combine (DT.day now_dt) (DT.time_of 9 15) in
  let! elapsed := DT.sub now_dt base in
  if elapsed <? 0 then Ok (DT.replace_microsecond0 base)
  else if interval_minutes * 60 =? 0 then Raise ZeroDivisionError
  else if float_overflows (interval_minutes * 60) then Raise OverflowError
  else
    let intervals_passed :=
      elapsed / (interval_minutes * 60 * DT.us_per_second) + 1 in
    let! next_interval := DT.add_minutes base (intervals_passed * interval_minutes) in
    Ok (DT.replace_microsecond0 next_interval).

(** Lines 171-173: [next_interval] and [present_interval] of
    [_fetch_intraday_data_sync], from the naive [datetime.now()]. *)
Definition present_interval (interval : Z) (now : datetime)
  : result (datetime * datetime) :=
  let! next_interval := _round_to_next_interval_local interval now in
  let! present := DT.add_minutes next_interval (- interval) in
  Ok (next_interval, present).

(** The JSON body [_place_order_sync] posts (lines 316-337). *)
Record order_payload : Type := mkPayload {
  op_quantity : Z;
  op_product : string;
  op_validity : string;
  op_price : Q;
  op_tag : string;
  op_instrument_token : string;
  op_order_type : string;
  op_transaction_type : string;
  op_disclosed_quantity : Z;
  op_trigger_price : Z;
  op_is_amo : bool;
  op_slice : bool
}.

Definition _place_order_payload (instrument_token : string) (quantity : Z)
    (transaction_type : string) (price : Q) : order_payload :=
  let quantity := Z.abs quantity in
  let order_type := if Qeq_bool price 0 then "MARKET"%string else "LIMIT"%string in
  {| op_quantity := quantity;
     op_product := "D";
     op_validity := "DAY";
     op_price := price;
     op_tag := "AstyaTrade";
     op_instrument_token := instrument_token;
     op_order_type := order_type;
     op_transaction_type := transaction_type;
     op_disclosed_quantity := 0;
     op_trigger_price := 0;
     op_is_amo := false;
     op_slice := false |}.

(** Python's [round(x)] on a float: to the nearest integer, ties to the
    even one. *)
Definition py_round (x : Q) : Z :=
  let f := Qfloor x in
  match (x - inject_Z f ?= 1 # 2)%Q with
  | Lt => f
  | Gt => f + 1
  | Eq => if Z.even f then f else f + 1
  end.

(** Lines 366-377: the strike step of an index. *)
Definition index_step (index_name : string) : option Z :=
  if String.eqb index_name "NIFTY" then Some 50
  else if String.eqb index_name "BANKNIFTY" then Some 100
  else if String.eqb index_name "FINNIFTY" then Some 50
  else if String.eqb index_name "MIDCPNIFTY" then Some 25
  else None.

(** Line 380: [round(round(spot_value / step) * step)]. *)
Definition option_strike (spot_value : Q) (step : Z) : Z :=
  py_round (inject_Z (py_round (spot_value / inject_Z step) * step)).

(** Lines 418-426. *)
Definition index_lot_size (index_name : string) : Z :=
  if String.eqb index_name "NIFTY" then 75
  else if String.eqb index_name "BANKNIFTY" then 35
  else if String.eqb index_name "FINNIFTY" then 65
  else 120.

(** A row of the instrument frame left by the filter of lines 384-390,
    after [sort_values('expiry')]. *)
Record instrument_row : Type := mkInstrumentRow {
  ir_instrument_key : string;
  ir_expiry : Z
}.

(** [_get_option_instrument_key_sync] (lines 358-432).  [matching strike]
    is the filtered and sorted frame for the index, the option type, the
    strike and [today]. *)
Definition _get_option_instrument_key_sync
    (matching : Z -> list instrument_row) (today : Z)
    (spot_value : Q) (index_name : string) : option option_details :=
  match index_step index_name with
  | None => None
  | Some step =>
      let strike := option_strike spot_value step in
      match matching strike with
      | [] => None
      | first :: rest =>
          let chosen :=
            if ir_expiry first =? today then
              match rest with
              | second :: _ => Some second
              | [] => None
              end
            else Some first in
          match chosen with
          | None => None
          | Some option_data =>
              Some {| od_instrument_key := ir_instrument_key option_data;
                      od_lot_size := index_lot_size index_name;
                      od_strike := inject_Z strike;
                      od_expiry_date := ir_expiry option_data |}
          end
      end
  end.

(** The [prev_ohlc] object of the quote answer; a missing key is [None]. *)
Record prev_ohlc : Type := mkPrev {
  po_ts : option Z;
  po_open : option Q;
  po_high : option Q;
  po_low : option Q;
  po_close : option Q
}.

(** What [requests.get] gives [_fetch_ohlc_1min_data_sync]: a
    [RequestException], or a status code with the parsed body, where the
    body either lacks [data], the instrument or [prev_ohlc] ([NoPrev]) or
    holds [prev_ohlc], possibly null. *)
Inductive quote_body : Type :=
| NoPrev
| Prev (prev : option prev_ohlc).

Inductive quote_answer : Type :=
| RequestFailed
| Answered (status_code : Z) (body : quote_body).

(** [datetime.fromtimestamp(ts / 1000, tz=ist)]: the civil time in
    Asia/Kolkata (UTC+05:30) of [ts] milliseconds after the epoch. *)
Definition from_epoch_ms (ts : Z) : datetime :=
  let total := ts * 1000 + (5 * 60 + 30) * DT.us_per_minute in
  {| DT.day := 719163 + total / DT.us_per_day;
     DT.us := total mod DT.us_per_day;
     DT.aware := true |}.

(** [now.hour == 9 and now.minute == 15] *)
Definition is_0915 (now : datetime) : bool :=
  (DT.us now / (60 * DT.us_per_minute) =? 9) &&
  ((DT.us now / DT.us_per_minute) mod 60 =? 15).

(** [now.replace(minute=14, second=0, microsecond=0)] when [now.hour] is 9. *)
Definition at_0914 (now : datetime) : datetime :=
  {| DT.day := DT.day now; DT.us := DT.time_of 9 14; DT.aware := DT.aware now |}.

(** Lines 229-248 for a 200 answer that holds [prev_ohlc] with a close:
    [None] is the [KeyError] branch. *)
Definition candle_of_prev (now : datetime) (prev : prev_ohlc) : option candle :=
  match (if is_0915 now then Some (at_0914 now)
         else option_map from_epoch_ms (po_ts prev)) with
  | None => None
  | Some prev_ts =>
      match po_open prev, po_high prev, po_low prev, po_close prev with
      | Some o, Some h, Some l, Some c => Some (mkCandle prev_ts o h l c)
      | _, _, _, _ => None
      end
  end.

(** [_fetch_ohlc_1min_data_sync] (lines 216-259): [answers k] is what the
    [k]-th request of the call receives; the result comes with the number
    of requests made.  [attempts] counts the iterations left of
    [for attempt in range(1, retries + 1)]. *)
Fixpoint ohlc_attempts (now : datetime) (answers : nat -> quote_answer)
    (made attempts : nat) : option candle * nat :=
  match attempts with
  | O => (None, made)
  | S remaining =>
      match answers made with
      | RequestFailed => ohlc_attempts now answers (S made) remaining
      | Answered status_code body =>
          if status_code =? 200 then
            match body with
            | NoPrev => (None, S made)
            | Prev None => ohlc_attempts now answers (S made) remaining
            | Prev (Some prev) =>
                match po_close prev with
                | None => ohlc_attempts now answers (S made) remaining
                | Some _ => (candle_of_prev now prev, S made)
                end
            end
          else (None, S made)
      end
  end.

Definition _fetch_ohlc_1min_data_sync (now : datetime) (answers : nat -> quote_answer)
  : option candle * nat :=
  ohlc_attempts now answers 0 3.

(** Three weekly contracts of one strike, sorted by expiry. *)
Definition weekly_contracts (strike : Z) : list instrument_row :=
  [mkInstrumentRow "NSE_FO|2001" 13;
   mkInstrumentRow "NSE_FO|2002" 20;
   mkInstrumentRow "NSE_FO|2003" 27].

(** A complete [prev_ohlc] object. *)
Definition opening_quote : prev_ohlc :=
  mkPrev (Some 1700000000000) (Some 100%Q) (Some 100%Q) (Some 100%Q) (Some 100%Q).

(** ** The trade routes (broker_routes.py) *)

(** The three adapter classes and what [hasattr] finds on an instance:
    the methods of the class and the attributes [__init__] sets. *)
Inductive broker : Type :=
| UpstoxBroker
| AngelOneBroker
| ZerodhaBroker.

Definition attributes (b : broker) : list string :=
  match b with
  | UpstoxBroker =>
      ["access_token"; "headers"; "_instruments_df"; "_load_instruments_df";
       "fetch_profile"; "fetch_balance";
       "fetch_historical_data"; "_fetch_historical_data_sync";
       "fetch_intraday_data"; "_fetch_intraday_data_sync";
       "fetch_ohlc_1min_data"; "_fetch_ohlc_1min_data_sync";
       "fetch_live_option_value"; "_fetch_live_option_value_sync";
       "fetch_positions"; "_fetch_positions_sync";
       "place_order"; "_place_order_sync";
       "get_option_instrument_key"; "_get_option_instrument_key_sync";
       "get_stock_instrument_details"]
  | AngelOneBroker =>
      ["api_key"; "client_code"; "pin"; "totp_secret"; "smart_api";
       "refresh_token"; "feed_token";
       "generate_session"; "fetch_profile"; "fetch_balance"]
  | ZerodhaBroker =>
      ["api_key"; "access_token"; "kite";
       "generate_session"; "fetch_profile"; "fetch_balance"]
  end%string.

Definition hasattr (b : broker) (name : string) : bool :=
  existsb (String.eqb name) (attributes b).

(** Lines 153-157. *)
Definition required_methods : list string :=
  ["fetch_historical_data"; "fetch_intraday_data"; "fetch_ohlc_1min_data";
   "fetch_live_option_value"; "fetch_positions"; "place_order";
   "get_option_instrument_key"; "get_stock_instrument_details"]%string.

(** An [asyncio.Task] of the registry: still running, or done with the way
    it ended. *)
Inductive outcome : Type :=
| Returned
| Cancelled
| Failed.

Inductive task : Type :=
| Running
| Done (o : outcome).

Definition done (t : task) : bool :=
  match t with
  | Running => false
  | Done _ => true
  end.

(** [active_broker_connections] and [active_trade_tasks]. *)
Definition connections : Type := string -> option broker.
Definition registry : Type := string -> option task.

Definition registry_set (reg : registry) (key : string) (t : task) : registry :=
  fun k => if String.eqb k key then Some t else reg k.

Definition registry_del (reg : registry) (key : string) : registry :=
  fun k => if String.eqb k key then None else reg k.

Record StartTradeRequest : Type := mkStartTradeRequest {
  broker_name : string;
  req_instrument_key_index : string;
  req_index_name : string;
  req_interval : Z;
  req_lots : Z
}.

Definition user_id : string := "mock_user_123".

(** [str(n)] of an int. *)
Definition str_of_int (n : Z) : string := NilZero.string_of_int (Z.to_int n).

Definition connection_key_of (broker_name : string) : string :=
  (user_id ++ ":" ++ broker_name)%string.

(** [f"{user_id}:{broker_name}:{instrument_key_index}:{interval}"] *)
Definition trade_task_id_of (broker_name instrument_key_index : string) (interval : Z)
  : string :=
  (connection_key_of broker_name ++ ":" ++ instrument_key_index ++ ":"
     ++ str_of_int interval)%string.

(** What a route answers: an [HTTPException] with its status code, or a
    [TradeActionResponse] with its [task_id] and [status] (the message
    texts are left out). *)
Inductive detail : Type :=
| AlreadyRunning
| NotConnected
| MissingMethod (method_name : string)
| NoSession.

Inductive response : Type :=
| HTTPException (status_code : Z) (d : detail)
| TradeActionResponse (task_id : string) (status : string).

(** [start_trade] (lines 139-181).  The route has no [await]: it runs
    without interleaving. *)
Definition start_trade (conns : connections) (reg : registry)
    (request : StartTradeRequest) : response * registry :=
  let connection_key := connection_key_of (broker_name request) in
  let trade_task_id :=
    trade_task_id_of (broker_name request) (req_instrument_key_index request)
                     (req_interval request) in
  if match reg trade_task_id with
     | Some t => negb (done t)
     | None => false
     end
  then (HTTPException 409 AlreadyRunning, reg)
  else
    match conns connection_key with
    | None => (HTTPException 400 NotConnected, reg)
    | Some broker_instance =>
        match find (fun method_name => negb (hasattr broker_instance method_name))
                   required_methods with
        | Some method_name => (HTTPException 400 (MissingMethod method_name), reg)
        | None =>
            (TradeActionResponse trade_task_id "running",
             registry_set reg trade_task_id Running)
        end
    end.

(** [get_trade_status] (lines 216-240).  Awaiting a task that is done does
    not suspend, so this route too runs without interleaving. *)
Definition get_trade_status (reg : registry)
    (broker_name instrument_key_index : string) (interval : Z)
  : response * registry :=
  let trade_task_id := trade_task_id_of broker_name instrument_key_index interval in
  match reg trade_task_id with
  | None => (TradeActionResponse trade_task_id "not_running", reg)
  | Some (Done o) =>
      let status_message :=
        match o with
        | Returned => "finished"
        | Cancelled => "cancelled"
        | Failed => "failed"
        end%string in
      (TradeActionResponse trade_task_id status_message, registry_del reg trade_task_id)
  | Some Running => (TradeActionResponse trade_task_id "running", reg)
  end.



(** A start request, its task id, the empty registry and one Upstox
    connection. *)
Definition nifty_request : StartTradeRequest :=
  mkStartTradeRequest "Upstox" "NSE_INDEX|Nifty 50" "NIFTY" 5 1.

Definition nifty_task_id : string := "mock_user_123:Upstox:NSE_INDEX|Nifty 50:5".

Definition no_tasks : registry := fun _ => None.

Definition upstox_connected : connections :=
  fun k => if String.eqb k "mock_user_123:Upstox" then Some UpstoxBroker else None.

(** * Properties *)

(** ** The interval clock *)

Lemma instant_same_day (d : datetime) :
  DT.instant d - DT.instant (origin d) = DT.us d - market_open.
Proof. unfold DT.instant, origin, DT.combine; simpl; lia. Qed.

Lemma add_minutes_whole (d r : datetime) (m : Z) :
  DT.us d mod DT.us_per_minute = 0 ->
  DT.add_minutes d m = Ok r ->
  DT.us r mod DT.us_per_minute = 0 /\ DT.aware r = DT.aware d.
Proof.
  unfold DT.add_minutes. intros Hd.
  destruct (_ && _); [|discriminate].
  intros [= <-]; simpl. split; [|reflexivity].
  apply Z.mod_divide in Hd; [|discriminate].
  destruct Hd as [q Hq]. rewrite Hq.
  replace (q * DT.us_per_minute + m * DT.us_per_minute)
    with ((q + m) * DT.us_per_minute) by ring.
  change DT.us_per_day with (1440 * DT.us_per_minute).
  rewrite Z.mul_mod_distr_r by discriminate.
  apply Z.mod_mul. discriminate.
Qed.

Lemma replace_microsecond0_whole (r : datetime) :
  DT.us r mod DT.us_per_minute = 0 -> DT.replace_microsecond0 r = r.
Proof.
  intros Hr. destruct r as [dy u a]; unfold DT.replace_microsecond0; simpl in *.
  f_equal.
  apply Z.mod_divide in Hr; [|discriminate]. destruct Hr as [q ->].
  change DT.us_per_minute with (60 * DT.us_per_second).
  rewrite Z.mul_assoc, Z.mod_mul by discriminate. lia.
Qed.

(** On a naive reference time before 09:15 the clock returns the origin. *)
Lemma round_before_open (interval_minutes : Z) (now_dt : datetime) :
  DT.aware now_dt = false ->
  DT.us now_dt < market_open ->
  _round_to_next_interval interval_minutes now_dt = Ok (origin now_dt).
Proof.
  intros Hn Hlt. unfold _round_to_next_interval, DT.sub.
  fold (origin now_dt). rewrite Hn; simpl.
  rewrite instant_same_day.
  destruct (Z.ltb_spec (DT.us now_dt - market_open) 0); [reflexivity | lia].
Qed.

(** On a naive reference time at or after 09:15 the clock returns the
    origin plus (floor(elapsed / interval) + 1) intervals, as far as that
    datetime exists. *)
Lemma round_after_open (interval_minutes : Z) (now_dt : datetime) :
  DT.aware now_dt = false ->
  market_open <= DT.us now_dt ->
  interval_minutes <> 0 ->
  float_overflows (interval_minutes * 60) = false ->
  _round_to_next_interval interval_minutes now_dt =
  DT.add_minutes (origin now_dt)
    (((DT.us now_dt - market_open) / (interval_minutes * 60 * DT.us_per_second) + 1)
     * interval_minutes).
Proof.
  intros Hn Hge Hi Hf. unfold _round_to_next_interval, DT.sub.
  fold (origin now_dt). rewrite Hn; simpl.
  rewrite instant_same_day.
  destruct (Z.ltb_spec (DT.us now_dt - market_open) 0); [lia|].
  destruct (Z.eqb_spec (interval_minutes * 60) 0); [lia|].
  rewrite Hf.
  destruct (DT.add_minutes _ _) as [r|e] eqn:Hadd; [|reflexivity].
  simpl. f_equal. apply replace_microsecond0_whole.
  eapply add_minutes_whole; [|exact Hadd]. reflexivity.
Qed.

(** Whatever the clock returns is naive and on a whole minute. *)
Lemma round_result_whole_minute (interval_minutes : Z) (now_dt r : datetime) :
  _round_to_next_interval interval_minutes now_dt = Ok r ->
  DT.us r mod DT.us_per_minute = 0 /\ DT.aware r = false.
Proof.
  unfold _round_to_next_interval. fold (origin now_dt).
  destruct (DT.sub _ _) as [el|]; simpl; [|discriminate].
  destruct (el <? 0).
  - intros [= <-]. split; reflexivity.
  - destruct (_ =? 0); [discriminate|].
    destruct (float_overflows _); [discriminate|].
    destruct (DT.add_minutes _ _) as [n|] eqn:Hadd; simpl; [|discriminate].
    intros [= <-].
    destruct (add_minutes_whole (origin now_dt) _ _ eq_refl Hadd) as [Hw Ha].
    rewrite replace_microsecond0_whole by exact Hw. split; assumption.
Qed.

(** 10:02:30.5 on a naive clock, 5-minute interval: 10:05. *)
Example round_naive_example :
  _round_to_next_interval 5
    (DT.mk 738000 ((10 * 3600 + 2 * 60 + 30) * 1000000 + 500000) false)
  = Ok (DT.mk 738000 (DT.time_of 10 5) false).
Proof. vm_compute. reflexivity. Qed.

(** The origin built by [combine] is naive, so subtracting it from an
    aware reference time raises. *)
Lemma round_aware_raises (interval_minutes : Z) (now_dt : datetime) :
  DT.aware now_dt = true ->
  _round_to_next_interval interval_minutes now_dt = Raise TypeError.
Proof.
  intros Ha. unfold _round_to_next_interval, DT.sub. rewrite Ha. reflexivity.
Qed.

(** C1 (as the code behaves): the session hands the clock timezone-aware
    datetimes ([datetime.now(ist)], the localized candle times), while the
    origin built by [combine] is naive; their subtraction raises
    [TypeError].  So on an aware reference time the clock returns neither
    the origin (before 09:15) nor the next boundary (from 09:15 on): for
    every interval size it raises. *)
Theorem round_to_next_interval_aware_raises (interval_minutes : Z) (now_dt : datetime) :
  DT.aware now_dt = true ->
  (DT.us now_dt < market_open ->
     _round_to_next_interval interval_minutes now_dt <> Ok (origin now_dt)) /\
  _round_to_next_interval interval_minutes now_dt = Raise TypeError.
Proof.
  intros Ha. rewrite (round_aware_raises interval_minutes now_dt Ha).
  split; [intros _; discriminate | reflexivity].
Qed.

Lemma round_to_next_interval_aware_raises_witness :
  _round_to_next_interval 1 (DT.mk 738000 (DT.time_of 10 0) true) = Raise TypeError.
Proof.
  apply (round_to_next_interval_aware_raises 1 (DT.mk 738000 (DT.time_of 10 0) true)).
  reflexivity.
Defined.

(** ** The trend-following band *)

Lemma Qltb_lt (a b : Q) : Qltb a b = true <-> (a < b)%Q.
Proof.
  unfold Qltb. rewrite negb_true_iff.
  split.
  - intros H. apply Qnot_le_lt. intros Hle.
    apply Qle_bool_iff in Hle. congruence.
  - intros H. destruct (Qle_bool b a) eqn:Hb; [|reflexivity].
    apply Qle_bool_iff in Hb. exfalso. exact (Qlt_not_le _ _ H Hb).
Qed.

Lemma Qltb_ge (a b : Q) : Qltb a b = false <-> (b <= a)%Q.
Proof.
  unfold Qltb. rewrite negb_false_iff. apply Qle_bool_iff.
Qed.

(** The three branches of the loop body. *)
Lemma band_step_cases (prev : band) (close : Q) (raw : band) :
  let cur := band_step prev close raw in
  ((final_upper prev < close)%Q /\ bullish cur = true) \/
  ((close <= final_upper prev)%Q /\ (close < final_lower prev)%Q /\ bullish cur = false) \/
  ((final_lower prev <= close <= final_upper prev)%Q /\
   bullish cur = bullish prev /\
   (bullish cur = true -> (final_lower prev <= final_lower cur)%Q) /\
   (bullish cur = false -> (final_upper cur <= final_upper prev)%Q)).
Proof.
  unfold band_step.
  destruct (Qltb (final_upper prev) close) eqn:Hup.
  - left. split; [apply Qltb_lt; exact Hup | reflexivity].
  - apply Qltb_ge in Hup.
    destruct (Qltb close (final_lower prev)) eqn:Hlo.
    + right; left. apply Qltb_lt in Hlo. simpl. auto.
    + right; right. apply Qltb_ge in Hlo. simpl.
      split; [split; assumption|]. split; [reflexivity|].
      split; intros Hs; rewrite Hs; simpl.
      * destruct (Qltb (final_lower raw) (final_lower prev)) eqn:Hr.
        -- apply Qle_refl.
        -- apply Qltb_ge. exact Hr.
      * destruct (Qltb (final_upper prev) (final_upper raw)) eqn:Hr.
        -- apply Qle_refl.
        -- apply Qltb_ge. exact Hr.
Qed.

Lemma band_loop_nth (rows : list (Q * band)) :
  forall (b0 : band) (i : nat) (prev cur : band),
  nth_error (b0 :: band_loop b0 rows) i = Some prev ->
  nth_error (b0 :: band_loop b0 rows) (S i) = Some cur ->
  exists close raw,
    nth_error rows i = Some (close, raw) /\ cur = band_step prev close raw.
Proof.
  induction rows as [|[close raw] rest IH]; intros b0 i prev cur Hp Hc.
  - simpl in Hc. destruct i; discriminate.
  - destruct i as [|i].
    + simpl in Hp, Hc. injection Hp as <-. injection Hc as <-.
      exists close, raw. split; reflexivity.
    + simpl in Hp, Hc |- *.
      apply (IH (band_step b0 close raw) i prev cur); assumption.
Qed.

(** Index [i + 1] of the three series is the loop body run on index [i]
    and on the close of candle [i + 1]. *)
Lemma supertrend_bands_step (multiplier : Q) (df : list candle) (atr : list Q)
      (i : nat) (prev cur : band) (c : candle) :
  nth_error (supertrend_bands multiplier df atr) i = Some prev ->
  nth_error (supertrend_bands multiplier df atr) (S i) = Some cur ->
  nth_error df (S i) = Some c ->
  exists raw, cur = band_step prev (c_close c) raw.
Proof.
  unfold supertrend_bands. intros Hp Hc Hdf.
  destruct df as [|c0 df]; [discriminate|].
  destruct atr as [|a0 atr]; [destruct i; discriminate|].
  simpl in Hp, Hc, Hdf.
  destruct (band_loop_nth _ _ _ _ _ Hp Hc) as (close & raw & Hrow & ->).
  exists raw. f_equal.
  rewrite nth_error_map in Hrow.
  destruct (nth_error (List.combine df atr) i) as [[c' a']|] eqn:Hnth; [|discriminate].
  simpl in Hrow. injection Hrow as <- _.
  clear - Hnth Hdf. revert atr i Hnth Hdf.
  induction df as [|x df IH]; intros [|y atr] [|i] Hnth Hdf; simpl in *;
    try discriminate.
  - injection Hnth as <- _. injection Hdf as <-. reflexivity.
  - eapply IH; eassumption.
Qed.

Lemma calculate_supertrend_nth (multiplier : Q) (df : list candle) (atr : list Q) (i : nat) :
  nth_error (calculate_supertrend multiplier df atr) i =
  option_map band_value (nth_error (supertrend_bands multiplier df atr) i).
Proof. unfold calculate_supertrend. apply nth_error_map. Qed.

(** C6: at every index after the first, (1) when the close lies strictly
    between the previous final lower and upper bands the bullish/bearish
    state is the previous one, and then the final lower band has not
    decreased if the state is bullish and the final upper band has not
    increased if it is bearish; (2) the state differs from the previous
    one only when the close is above the previous final upper band (turning
    bullish) or below the previous final lower band (turning bearish);
    (3) the reported value is the final lower band when bullish and the
    final upper band when bearish. *)
Theorem supertrend_state_carried_forward
    (multiplier : Q) (df : list candle) (atr : list Q)
    (i : nat) (prev cur : band) (c : candle) :
  nth_error (supertrend_bands multiplier df atr) i = Some prev ->
  nth_error (supertrend_bands multiplier df atr) (S i) = Some cur ->
  nth_error df (S i) = Some c ->
  ((final_lower prev < c_close c)%Q -> (c_close c < final_upper prev)%Q ->
     bullish cur = bullish prev /\
     (bullish cur = true -> (final_lower prev <= final_lower cur)%Q) /\
     (bullish cur = false -> (final_upper cur <= final_upper prev)%Q)) /\
  (bullish cur <> bullish prev ->
     (bullish cur = true /\ (final_upper prev < c_close c)%Q) \/
     (bullish cur = false /\ (c_close c < final_lower prev)%Q)) /\
  nth_error (calculate_supertrend multiplier df atr) (S i) =
    Some (if bullish cur then final_lower cur else final_upper cur).
Proof.
  intros Hp Hc Hdf.
  destruct (supertrend_bands_step _ _ _ _ _ _ _ Hp Hc Hdf) as [raw Hcur].
  pose proof (band_step_cases prev (c_close c) raw) as Hcases.
  rewrite <- Hcur in Hcases. cbv zeta in Hcases.
  split; [|split].
  - intros Hlo Hup.
    destruct Hcases as [[Hx _]|[(_ & Hx & _)|(_ & Hs & Hl & Hu)]].
    + exfalso. exact (Qlt_irrefl _ (Qlt_trans _ _ _ Hx Hup)).
    + exfalso. exact (Qlt_irrefl _ (Qlt_trans _ _ _ Hx Hlo)).
    + auto.
  - intros Hne.
    destruct Hcases as [[Hx Hb]|[(_ & Hx & Hb)|(_ & Hs & _)]].
    + left; auto.
    + right; auto.
    + contradiction.
  - rewrite calculate_supertrend_nth, Hc. reflexivity.
Qed.

(** The same on the whole carry-forward branch: it is taken when the close
    is neither above the previous upper band nor below the previous lower
    band, the bounds included. *)
Lemma supertrend_ratchet_on_carry
    (multiplier : Q) (df : list candle) (atr : list Q)
    (i : nat) (prev cur : band) (c : candle) :
  nth_error (supertrend_bands multiplier df atr) i = Some prev ->
  nth_error (supertrend_bands multiplier df atr) (S i) = Some cur ->
  nth_error df (S i) = Some c ->
  (final_lower prev <= c_close c)%Q -> (c_close c <= final_upper prev)%Q ->
  bullish cur = bullish prev /\
  (bullish cur = true -> (final_lower prev <= final_lower cur)%Q) /\
  (bullish cur = false -> (final_upper cur <= final_upper prev)%Q).
Proof.
  intros Hp Hc Hdf Hlo Hup.
  destruct (supertrend_bands_step _ _ _ _ _ _ _ Hp Hc Hdf) as [raw Hcur].
  pose proof (band_step_cases prev (c_close c) raw) as Hcases.
  rewrite <- Hcur in Hcases. cbv zeta in Hcases.
  destruct Hcases as [[Hx _]|[(_ & Hx & _)|(_ & Hs & Hl & Hu)]].
  - exfalso. exact (Qlt_not_le _ _ Hx Hup).
  - exfalso. exact (Qlt_not_le _ _ Hx Hlo).
  - auto.
Qed.

(** Outside the carry-forward branch the loop keeps the raw bands: a close
    above the previous upper band sets the state bullish without comparing
    the lower band with the previous one. *)
Example band_step_on_breakout :
  band_step (mkBand true 105 95) 120 (mkBand true 130 90) = mkBand true 130 90.
Proof. reflexivity. Qed.

Lemma supertrend_state_carried_forward_witness :
  (final_lower band_0 < 101)%Q /\ (101 < final_upper band_0)%Q /\
  bullish band_1 = bullish band_0 /\
  nth_error (calculate_supertrend 3 two_candles [5 # 3; 5 # 3]) 1
  = Some (final_lower band_1).
Proof.
  pose proof (supertrend_state_carried_forward 3 two_candles [5 # 3; 5 # 3] 0
    band_0 band_1 (mkCandle (naive_at 9 20) 100 103 99 101)
    eq_refl eq_refl eq_refl) as [Hcarry [_ Hvalue]].
  assert (Hlo : (final_lower band_0 < 101)%Q) by reflexivity.
  assert (Hup : (101 < final_upper band_0)%Q) by reflexivity.
  destruct (Hcarry Hlo Hup) as [Hs _].
  repeat split; assumption.
Defined.

(** ** Symbol suffixes *)

Lemma last_two_suffix (s : string) (a b : ascii) :
  last_two s = String a (String b EmptyString) <->
  exists rest, rev (chars s) = b :: a :: rest.
Proof.
  unfold last_two.
  destruct (rev (chars s)) as [|x [|y rest]]; simpl.
  - split; [discriminate | intros [? ?]; discriminate].
  - split; [discriminate | intros [? ?]; discriminate].
  - split.
    + intros [= -> ->]. eauto.
    + intros [rest' [= -> -> _]]. reflexivity.
Qed.

Lemma endswith_suffix (s : string) (a b : ascii) :
  endswith s (String a (String b EmptyString)) = true <->
  exists rest, rev (chars s) = b :: a :: rest.
Proof.
  unfold endswith. simpl.
  destruct (rev (chars s)) as [|x [|y rest]]; simpl.
  - split; [discriminate | intros [? ?]; discriminate].
  - rewrite andb_false_r.
    split; [discriminate | intros [? ?]; discriminate].
  - rewrite andb_true_r, andb_true_iff, !Ascii.eqb_eq.
    split.
    + intros [-> ->]. eauto.
    + intros [rest' [= -> -> _]]. auto.
Qed.

(** [symbol.endswith(t)] and [symbol[-2:] == t] agree on a two-letter [t]. *)
Lemma endswith_last_two (s : string) (a b : ascii) :
  endswith s (String a (String b EmptyString)) = true <->
  last_two s = String a (String b EmptyString).
Proof. rewrite endswith_suffix, last_two_suffix. reflexivity. Qed.

(** ** Entry and exit rules *)

Lemma buy_signal_iff (r : indicator_row) :
  buy_signal r = true <->
  (adxema r < adx r /\ -30 < willr r /\
   supertrend r < close_price r /\ macd_signal r < macd r)%Q.
Proof.
  unfold buy_signal. rewrite !andb_true_iff, !Qltb_lt. tauto.
Qed.

Lemma sell_signal_iff (r : indicator_row) :
  sell_signal r = true <->
  (adxema r < adx r /\ willr r < -70 /\
   close_price r < supertrend r /\ macd r < macd_signal r)%Q.
Proof.
  unfold sell_signal. rewrite !andb_true_iff, !Qltb_lt. tauto.
Qed.

Lemma exit_ce_iff (r : indicator_row) (option_type : string) :
  exit_ce r option_type = true <->
  option_type = "CE"%string /\
  ((willr r < -70 /\ close_price r < supertrend r) \/
   (willr r < -70 /\ macd r < macd_signal r) \/
   (close_price r < supertrend r /\ macd r < macd_signal r))%Q.
Proof.
  unfold exit_ce.
  rewrite andb_true_iff, !orb_true_iff, !andb_true_iff, !Qltb_lt, String.eqb_eq.
  tauto.
Qed.

Lemma exit_pe_iff (r : indicator_row) (option_type : string) :
  exit_pe r option_type = true <->
  option_type = "PE"%string /\
  ((-30 < willr r /\ supertrend r < close_price r) \/
   (-30 < willr r /\ macd_signal r < macd r) \/
   (supertrend r < close_price r /\ macd r < macd_signal r))%Q.
Proof.
  unfold exit_pe.
  rewrite andb_true_iff, !orb_true_iff, !andb_true_iff, !Qltb_lt, String.eqb_eq.
  tauto.
Qed.

Lemma Qlt_asym (a b : Q) : (a < b)%Q -> (b < a)%Q -> False.
Proof. intros H1 H2. exact (Qlt_irrefl _ (Qlt_trans _ _ _ H1 H2)). Qed.

Lemma willr_not_both (x : Q) : (-30 < x)%Q -> (x < -70)%Q -> False.
Proof.
  intros H1 H2.
  assert (H : (-30 < -70)%Q) by exact (Qlt_trans _ _ _ H1 H2).
  discriminate H.
Qed.

(** Under the call-entry conditions no clause of the call exit holds. *)
Lemma buy_signal_no_exit_ce (r : indicator_row) (option_type : string) :
  buy_signal r = true -> exit_ce r option_type = false.
Proof.
  intros Hb. apply buy_signal_iff in Hb. destruct Hb as (_ & Hw & Hs & Hm).
  apply not_true_is_false. intros Hx. apply exit_ce_iff in Hx.
  destruct Hx as [_ [[H1 H2]|[[H1 H2]|[H1 H2]]]].
  - exact (willr_not_both _ Hw H1).
  - exact (willr_not_both _ Hw H1).
  - exact (Qlt_asym _ _ Hs H1).
Qed.

(** Under the put-entry conditions no clause of the put exit holds. *)
Lemma sell_signal_no_exit_pe (r : indicator_row) (option_type : string) :
  sell_signal r = true -> exit_pe r option_type = false.
Proof.
  intros Hb. apply sell_signal_iff in Hb. destruct Hb as (_ & Hw & Hs & Hm).
  apply not_true_is_false. intros Hx. apply exit_pe_iff in Hx.
  destruct Hx as [_ [[H1 H2]|[[H1 H2]|[H1 H2]]]].
  - exact (willr_not_both _ H1 Hw).
  - exact (willr_not_both _ H1 Hw).
  - exact (Qlt_asym _ _ Hs H1).
Qed.

Lemma has_ce_position_iff (positions : list position) :
  has_ce_position positions = true <->
  exists pos, In pos positions /\ 0 < quantity pos /\
              endswith (tradingsymbol pos) "CE" = true.
Proof.
  unfold has_ce_position. rewrite existsb_exists.
  split; intros (pos & Hin & H); exists pos; split; auto.
  - apply andb_true_iff in H. destruct H as [Hq Hs].
    apply Z.ltb_lt in Hq. auto.
  - destruct H as [Hq Hs]. apply andb_true_iff. split; [apply Z.ltb_lt|]; auto.
Qed.

(** ** Rolling buffers *)

Lemma deque_append_snoc (buf : list candle) (c : candle) :
  deque_append buf c = skipn (length buf + 1 - maxlen) buf ++ [c].
Proof.
  unfold deque_append. rewrite length_app; simpl.
  rewrite skipn_app.
  replace (length buf + 1 - maxlen - length buf)%nat with 0%nat by (unfold maxlen; lia).
  reflexivity.
Qed.

Lemma tail_time_snoc (buf : list candle) (c : candle) :
  tail_time (buf ++ [c]) = Some (c_datetime c).
Proof. unfold tail_time. rewrite rev_app_distr. reflexivity. Qed.

Lemma tail_time_deque_append (buf : list candle) (c : candle) :
  tail_time (deque_append buf c) = Some (c_datetime c).
Proof. rewrite deque_append_snoc. apply tail_time_snoc. Qed.




(** ** Traces of the session monad *)

Section Traces.

Context {W : Type} {E : Environment W}.

Lemma grows_ret {A} (a : A) P : grows (W:=W) (ret a) P.
Proof. intros e. exists []. simpl. rewrite app_nil_r. auto. Qed.




Lemma grows_tell ev (f : W -> W) (P : event -> Prop) : P ev -> grows (W:=W) (tell ev f) P.
Proof. intros H e. exists [ev]. simpl. auto. Qed.


Lemma grows_bind {A B} (m : M W A) (k : A -> M W B) P :
  grows (W:=W) m P -> (forall a, grows (W:=W) (k a) P) -> grows (W:=W) (bind m k) P.
Proof.
  intros Hm Hk e. unfold bind.
  destruct (Hm e) as (evs1 & H1 & HP1).
  destruct (m e) as [[a|x] e1]; simpl in H1.
  - destruct (Hk a e1) as (evs2 & H2 & HP2).
    exists (evs1 ++ evs2). rewrite H2, H1, app_assoc.
    split; [reflexivity | apply Forall_app; auto].
  - exists evs1. simpl. auto.
Qed.

Lemma grows_for_each {A} (l : list A) (body : A -> M W unit) P :
  (forall a, In a l -> grows (W:=W) (body a) P) -> grows (W:=W) (for_each l body) P.
Proof.
  induction l as [|a l IH]; intros Hb; simpl.
  - apply grows_ret.
  - apply grows_bind.
    + apply Hb. left; reflexivity.
    + intros _. apply IH. intros b Hin. apply Hb. right; exact Hin.
Qed.

End Traces.


(** ** Initialisation *)

#[local] Arguments append_rows : simpl never.
#[local] Arguments tail_time : simpl never.
#[local] Arguments Nat.leb : simpl never.

Section Initialisation.

Context {W : Type} {E : Environment W}.
Variable indicators : bool -> list candle -> list indicator_row.
Variable resample : Z -> list candle -> list candle.
Variables (index_name instrument_key_index : string) (interval lots : Z).









End Initialisation.

(** ** The 1-minute branch *)

Section MinuteBranch.

Context {W : Type} {E : Environment W}.
Variable indicators : bool -> list candle -> list indicator_row.
Variable resample : Z -> list candle -> list candle.
Variables (index_name instrument_key_index : string) (interval lots : Z).

(** A pass whose candle fetch fails: one fetch, one sleep, nothing else,
    and the session variables are the ones the pass started with. *)
Lemma live_pass_failed_fetch (s : session) (e : env W) (now : datetime) (w1 w2 : W) :
  clock_now (world e) = (now, w1) ->
  DT.us now < market_close ->
  DT.ge now (next_interval_end_1min s) = Ok true ->
  fetch_ohlc_1min_data instrument_key_index w1 = (None, w2) ->
  live_pass indicators resample index_name instrument_key_index interval lots s e =
  (Ok (Continue, s),
   mkEnv (pass_time 5 w2)
         (trace e ++ [FetchOhlc1Min instrument_key_index; Sleep 5])).
Proof.
  intros Hnow Hopen Hdue Hfetch.
  unfold live_pass, now_ist, peek. unfold bind at 1. rewrite Hnow.
  destruct (Z.leb_spec market_close (DT.us now)); [lia|].
  unfold minute_step, lift, ask, sleep, tell, ret, bind. simpl.
  rewrite Hdue. simpl. rewrite Hfetch. simpl.
  rewrite <- app_assoc. reflexivity.
Qed.

(** The 1-minute branch with a fetched candle: the fine buffer takes the
    guarded append and the boundary becomes what the clock returns. *)
Lemma minute_step_fetched (s : session) (e : env W) (now : datetime) (w2 : W)
      (c : candle) (buf : list candle) (b : datetime) :
  DT.ge now (next_interval_end_1min s) = Ok true ->
  fetch_ohlc_1min_data instrument_key_index (world e) = (Some c, w2) ->
  append_live (live_buffer s) c = Ok buf ->
  _round_to_next_interval 1 now = Ok b ->
  minute_step instrument_key_index now s e =
  (Ok (Some {| candle_buffer := candle_buffer s;
               live_buffer := buf;
               prev_time := prev_time s;
               next_interval_end_1min := b;
               next_resample_interval_end := next_resample_interval_end s |}),
   mkEnv w2 (trace e ++ [FetchOhlc1Min instrument_key_index])).
Proof.
  intros Hdue Hfetch Happ Hclock.
  unfold minute_step, lift, ask, ret, bind. rewrite Hdue. simpl.
  rewrite Hfetch. simpl. rewrite Happ, Hclock. reflexivity.
Qed.

(** C10: at a 1-minute boundary (the market still open) a fetch that
    returns nothing ends the pass after the 5-second sleep.  The calls of
    the pass are exactly the fetch and the sleep: no valuation update, no
    position fetch, no order; and every session variable, the two buffers
    and the resample boundary included, is left as it was, wherever the
    resample boundary stands. *)
Theorem failed_fetch_skips_rest_of_pass
    (s : session) (e : env W) (now : datetime) (w1 w2 : W) :
  clock_now (world e) = (now, w1) ->
  DT.us now < market_close ->
  DT.ge now (next_interval_end_1min s) = Ok true ->
  fetch_ohlc_1min_data instrument_key_index w1 = (None, w2) ->
  exists e',
    live_pass indicators resample index_name instrument_key_index interval lots s e
      = (Ok (Continue, s), e') /\
    trace e' = trace e ++ [FetchOhlc1Min instrument_key_index; Sleep 5] /\
    world e' = pass_time 5 w2.
Proof.
  intros Hnow Hopen Hdue Hfetch.
  rewrite (live_pass_failed_fetch s e now w1 w2 Hnow Hopen Hdue Hfetch).
  eexists. split; [reflexivity|]. split; reflexivity.
Qed.

(** C3 (as the code behaves): at a 1-minute boundary, a failed fetch leaves
    the 1-minute boundary where it was, the pass sleeps 5 seconds and the
    loop continues; with a fetched candle the boundary is set to the
    clock's answer for the current time. *)
Theorem minute_boundary_moves_only_with_candle
    (s : session) (e : env W) (now : datetime) (w1 w2 : W) (answer : option candle) :
  clock_now (world e) = (now, w1) ->
  DT.us now < market_close ->
  DT.ge now (next_interval_end_1min s) = Ok true ->
  fetch_ohlc_1min_data instrument_key_index w1 = (answer, w2) ->
  match answer with
  | None =>
      exists s' e',
        live_pass indicators resample index_name instrument_key_index interval lots s e
      = (Ok (Continue, s'), e') /\
        next_interval_end_1min s' = next_interval_end_1min s /\
        trace e' = trace e ++ [FetchOhlc1Min instrument_key_index; Sleep 5]
  | Some c =>
      forall buf b,
        append_live (live_buffer s) c = Ok buf ->
        _round_to_next_interval 1 now = Ok b ->
        exists s' e',
          minute_step instrument_key_index now s (mkEnv w1 (trace e))
            = (Ok (Some s'), e') /\
          next_interval_end_1min s' = b
  end.
Proof.
  intros Hnow Hopen Hdue Hfetch. destruct answer as [c|].
  - intros buf b Happ Hclock.
    eexists _, _. split.
    + apply (minute_step_fetched s (mkEnv w1 (trace e)) now w2 c buf b); assumption.
    + reflexivity.
  - exists s. eexists. split.
    + apply (live_pass_failed_fetch s e now w1 w2); assumption.
    + split; reflexivity.
Qed.

(** Two passes in a row whose fetch fails: the second pass fetches again. *)
Lemma failed_fetch_is_retried
    (s : session) (e : env W) (now now' : datetime) (w1 w2 w3 w4 : W) :
  clock_now (world e) = (now, w1) ->
  DT.us now < market_close ->
  DT.ge now (next_interval_end_1min s) = Ok true ->
  fetch_ohlc_1min_data instrument_key_index w1 = (None, w2) ->
  clock_now (pass_time 5 w2) = (now', w3) ->
  DT.us now' < market_close ->
  DT.ge now' (next_interval_end_1min s) = Ok true ->
  fetch_ohlc_1min_data instrument_key_index w3 = (None, w4) ->
  live_loop indicators resample index_name instrument_key_index interval lots 2 s e =
  (Ok StillRunning,
   mkEnv (pass_time 5 w4)
         (trace e ++ [FetchOhlc1Min instrument_key_index; Sleep 5;
                      FetchOhlc1Min instrument_key_index; Sleep 5])).
Proof.
  intros H1 H2 H3 H4 H5 H6 H7 H8.
  cbn [live_loop]. unfold bind at 1.
  rewrite (live_pass_failed_fetch s e now w1 w2 H1 H2 H3 H4).
  unfold bind at 1.
  rewrite (live_pass_failed_fetch s
             (mkEnv (pass_time 5 w2)
                    (trace e ++ [FetchOhlc1Min instrument_key_index; Sleep 5]))
             now' w3 w4 H5 H6 H7 H8).
  unfold ret. cbn [trace]. rewrite <- app_assoc. reflexivity.
Qed.

End MinuteBranch.

(** ** The evaluation: entry and exits *)

Section Evaluation.

Context {W : Type} {E : Environment W}.
Variables (index_name : string) (interval lots : Z).

Lemma exit_position_trace (r : indicator_row) (pos : position) (e : env W) :
  exists w', exit_position r pos e = (Ok tt, mkEnv w' (trace e ++ exit_events r pos)).
Proof.
  unfold exit_position, exit_events.
  destruct (0 <? quantity pos); simpl.
  - destruct (exit_triggered r pos); simpl.
    + unfold bind, emit, tell. simpl. eexists. rewrite <- !app_assoc. reflexivity.
    + exists (world e). unfold ret. rewrite app_nil_r. destruct e; reflexivity.
  - exists (world e). unfold ret. rewrite app_nil_r. destruct e; reflexivity.
Qed.

Lemma exit_loop_trace (r : indicator_row) (positions : list position) :
  forall e : env W,
  exists w', for_each positions (exit_position r) e =
             (Ok tt, mkEnv w' (trace e ++ flat_map (exit_events r) positions)).
Proof.
  induction positions as [|pos rest IH]; intros e; simpl.
  - exists (world e). unfold ret. rewrite app_nil_r. destruct e; reflexivity.
  - unfold bind. destruct (exit_position_trace r pos e) as [w1 ->].
    destruct (IH (mkEnv w1 (trace e ++ exit_events r pos))) as [w2 ->].
    exists w2. simpl. rewrite <- app_assoc. reflexivity.
Qed.

Lemma enter_trace (r : indicator_row) (positions : list position) (e : env W) :
  exists e' evs,
    enter index_name interval lots r positions e = (Ok tt, e') /\
    trace e' = trace e ++ evs /\
    Forall (fun ev => is_entry_event ev = true) evs.
Proof.
  unfold enter.
  destruct (buy_signal r); [|destruct (sell_signal r)].
  - unfold bind at 1. unfold emit at 1. simpl.
    destruct (negb (has_ce_position positions)).
    + unfold bind at 1. unfold ask at 1. simpl.
      destruct (get_option_instrument_key _ _ _ _ _) as [[d|] w1].
      * unfold bind, tell, emit. simpl. eexists _, [_; _; _; _].
        split; [reflexivity|]. simpl. rewrite <- !app_assoc. simpl.
        split; [reflexivity|]. repeat constructor.
      * unfold ret. eexists _, [_; _].
        split; [reflexivity|]. simpl. rewrite <- !app_assoc. simpl.
        split; [reflexivity|]. repeat constructor.
    + unfold ret. eexists _, [_]. split; [reflexivity|]. simpl.
      split; [reflexivity|]. repeat constructor.
  - unfold bind at 1. unfold emit at 1. simpl.
    destruct (negb (has_pe_position positions)).
    + unfold bind at 1. unfold ask at 1. simpl.
      destruct (get_option_instrument_key _ _ _ _ _) as [[d|] w1].
      * unfold bind, tell, emit. simpl. eexists _, [_; _; _; _].
        split; [reflexivity|]. simpl. rewrite <- !app_assoc. simpl.
        split; [reflexivity|]. repeat constructor.
      * unfold ret. eexists _, [_; _].
        split; [reflexivity|]. simpl. rewrite <- !app_assoc. simpl.
        split; [reflexivity|]. repeat constructor.
    + unfold ret. eexists _, [_]. split; [reflexivity|]. simpl.
      split; [reflexivity|]. repeat constructor.
  - unfold ret. exists e, []. rewrite app_nil_r. auto.
Qed.

Lemma entry_events_no_fetch (evs : list event) :
  Forall (fun ev => is_entry_event ev = true) evs ->
  filter is_fetch_positions evs = [].
Proof.
  induction 1 as [|ev evs Hev _ IH]; [reflexivity|].
  simpl. rewrite IH. destruct ev; try reflexivity; discriminate.
Qed.

Lemma exit_events_no_fetch (r : indicator_row) (positions : list position) :
  filter is_fetch_positions (flat_map (exit_events r) positions) = [].
Proof.
  induction positions as [|pos rest IH]; [reflexivity|].
  simpl. rewrite filter_app, IH, app_nil_r.
  unfold exit_events. destruct (_ && _); reflexivity.
Qed.

Lemma exit_events_sell (r : indicator_row) (positions : list position)
      (tok : string) (q : Z) (p : Q) :
  In (PlaceOrder tok q "SELL" p) (flat_map (exit_events r) positions) ->
  exists pos, In pos positions /\ tok = instrument_token pos /\ q = quantity pos /\
              0 < q /\ exit_triggered r pos = true.
Proof.
  rewrite in_flat_map. intros (pos & Hin & Hev).
  exists pos. split; [exact Hin|].
  unfold exit_events in Hev.
  destruct (0 <? quantity pos) eqn:Hq; simpl in Hev; [|contradiction].
  destruct (exit_triggered r pos) eqn:Hx; simpl in Hev; [|contradiction].
  apply Z.ltb_lt in Hq.
  destruct Hev as [Hev|[Hev|[Hev|[]]]]; try discriminate.
  injection Hev as <- <- _. auto.
Qed.

(** The calls of one evaluation, in order. *)
Lemma evaluate_trace (r : indicator_row) (e : env W) :
  exists e' entry,
    evaluate index_name interval lots r e = (Ok tt, e') /\
    trace e' = trace e ++ FetchPositions :: entry ++
                 flat_map (exit_events r) (fst (fetch_positions (world e))) /\
    Forall (fun ev => is_entry_event ev = true) entry.
Proof.
  unfold evaluate. unfold bind at 1. unfold ask.
  destruct (fetch_positions (world e)) as [positions w1].
  unfold bind at 1.
  destruct (enter_trace r positions (mkEnv w1 (trace e ++ [FetchPositions])))
    as (e1 & entry & -> & Htr & Hentry).
  destruct (exit_loop_trace r positions e1) as [w2 ->].
  exists (mkEnv w2 (trace e1 ++ flat_map (exit_events r) positions)), entry.
  split; [reflexivity|]. split; [|exact Hentry].
  simpl. rewrite Htr. simpl. rewrite <- !app_assoc. reflexivity.
Qed.

(** C9: one evaluation fetches the open positions once, as its first call
    and so before any order; every call that follows is either a call of
    the entry side or a call the exit loop makes for a position of that
    snapshot, in the snapshot's order.  Hence every SELL order of the
    evaluation closes a position that was in the snapshot taken before the
    entry order, with that position's token and quantity. *)
Theorem exits_use_the_fetched_snapshot
    (r : indicator_row) (e : env W) (positions : list position) (w1 : W) :
  fetch_positions (world e) = (positions, w1) ->
  exists e' entry,
    evaluate index_name interval lots r e = (Ok tt, e') /\
    trace e' = trace e ++ FetchPositions :: entry ++ flat_map (exit_events r) positions /\
    Forall (fun ev => is_entry_event ev = true) entry /\
    filter is_fetch_positions (FetchPositions :: entry ++ flat_map (exit_events r) positions)
      = [FetchPositions] /\
    (forall tok q p,
       In (PlaceOrder tok q "SELL" p) (entry ++ flat_map (exit_events r) positions) ->
       exists pos, In pos positions /\ tok = instrument_token pos /\ q = quantity pos).
Proof.
  intros Hfetch.
  destruct (evaluate_trace r e) as (e' & entry & Hrun & Htr & Hentry).
  rewrite Hfetch in Htr. simpl in Htr.
  exists e', entry.
  split; [exact Hrun|]. split; [exact Htr|]. split; [exact Hentry|split].
  - simpl. rewrite filter_app, (entry_events_no_fetch _ Hentry), exit_events_no_fetch.
    reflexivity.
  - intros tok q p Hin. apply in_app_or in Hin. destruct Hin as [Hin|Hin].
    + exfalso. rewrite Forall_forall in Hentry. specialize (Hentry _ Hin).
      discriminate Hentry.
    + destruct (exit_events_sell _ _ _ _ _ Hin) as (pos & H1 & H2 & H3 & _).
      exists pos. auto.
Qed.

End Evaluation.

Section ResampleCycle.

Context {W : Type} {E : Environment W}.
Variable indicators : bool -> list candle -> list indicator_row.
Variable resample : Z -> list candle -> list candle.
Variables (index_name : string) (interval lots : Z).

(** A resample cycle starts with the valuation update and holds at most
    one evaluation, hence at most one fetch of the positions. *)
Lemma resample_cycle_fetches_positions_at_most_once (now : datetime) (s : session) (e : env W) :
  exists evs,
    trace (snd (resample_cycle indicators resample index_name interval lots now s e))
      = trace e ++ UpdatePnl 1 :: evs /\
    (length (filter is_fetch_positions evs) <= 1)%nat.
Proof.
  unfold resample_cycle. unfold bind at 1. unfold emit at 1.
  unfold bind at 1. unfold lift at 1.
  destruct (take_resampled s (resample interval (live_buffer s))) as [[buf prev]|x].
  - unfold bind at 1.
    assert (Hnone : forall e1 : env W,
              exists evs, trace (snd (bind (lift (_round_to_next_interval interval now))
                 (fun next => ret {| candle_buffer := buf;
                                     live_buffer := live_buffer s;
                                     prev_time := prev;
                                     next_interval_end_1min := next_interval_end_1min s;
                                     next_resample_interval_end := next |}) e1))
                = trace e1 ++ evs /\ evs = []).
    { intros e1. exists []. unfold bind, lift, ret.
      destruct (_round_to_next_interval interval now); simpl;
        rewrite app_nil_r; auto. }
    destruct (2 <=? length buf)%nat;
      [destruct (2 <=? length (indicators false buf))%nat;
       [destruct (rev (indicators false buf)) as [|latest rest]|]|].
    2: { destruct (evaluate_trace index_name interval lots latest
                     (mkEnv (world e) (trace e ++ [UpdatePnl 1])))
           as (e1 & entry & -> & Htr & Hentry).
         destruct (Hnone e1) as (evs & -> & ->).
         eexists. rewrite app_nil_r, Htr. simpl. rewrite <- app_assoc. simpl.
         split; [reflexivity|].
         simpl. rewrite filter_app, (entry_events_no_fetch _ Hentry), exit_events_no_fetch.
         simpl. lia. }
    all: unfold ret at 1;
      destruct (Hnone (mkEnv (world e) (trace e ++ [UpdatePnl 1]))) as (evs & -> & ->);
      exists []; simpl; rewrite app_nil_r; split; [reflexivity | simpl; lia].
  - exists []. simpl. split; [reflexivity | simpl; lia].
Qed.

End ResampleCycle.

Section EntryAndExitRules.

Context {W : Type} {E : Environment W}.
Variables (index_name : string) (interval lots : Z).

(** The calls of the entry side when the call entry is signalled. *)
Lemma enter_on_buy_signal (r : indicator_row) (positions : list position) (w : W) :
  buy_signal r = true ->
  trace (snd (enter index_name interval lots r positions (mkEnv w []))) =
  SendTelegram BuySignalGenerated ::
  (if has_ce_position positions then []
   else
     GetOptionInstrumentKey (close_price r) "CE" index_name interval ::
     match fst (get_option_instrument_key (close_price r) "CE" index_name interval w) with
     | Some d =>
         [PlaceOrder (od_instrument_key d) (lots * od_lot_size d) "BUY" (close_price r);
          LogOrderToExcel "BUY" (od_instrument_key d) (close_price r) lots
            (od_strike d) "CE" (od_lot_size d) (od_expiry_date d)]
     | None => []
     end).
Proof.
  intros Hb. unfold enter. rewrite Hb.
  unfold bind at 1. unfold emit at 1. simpl.
  destruct (has_ce_position positions); simpl; [reflexivity|].
  unfold bind at 1. unfold ask at 1. simpl.
  destruct (get_option_instrument_key _ _ _ _ _) as [[d|] w1]; reflexivity.
Qed.

(** Without the call-entry signal the entry side never announces one. *)
Lemma enter_without_buy_signal (r : indicator_row) (positions : list position) (w : W) :
  buy_signal r = false ->
  ~ In (SendTelegram BuySignalGenerated)
       (trace (snd (enter index_name interval lots r positions (mkEnv w [])))).
Proof.
  intros Hb. unfold enter. rewrite Hb.
  destruct (sell_signal r); [|simpl; tauto].
  unfold bind at 1. unfold emit at 1. simpl.
  destruct (negb (has_pe_position positions)).
  - unfold bind at 1. unfold ask at 1. simpl.
    destruct (get_option_instrument_key _ _ _ _ _) as [[d|] w1]; simpl;
      intuition discriminate.
  - simpl. intuition discriminate.
Qed.

(** C4: the call entry is signalled exactly when adx > adxema,
    willr > -30, supertrend < close and macd > macd_signal; when it is
    signalled, a BUY order among the calls of the entry side implies that
    no position of the fetched snapshot has a positive quantity and a
    symbol ending in CE; and with no such position and the option
    instrument resolved, the order is placed for lots times the lot size at
    the close. *)
Theorem call_entry_rule (r : indicator_row) (positions : list position) (w : W) :
  let evs := trace (snd (enter index_name interval lots r positions (mkEnv w []))) in
  (In (SendTelegram BuySignalGenerated) evs <->
     (adxema r < adx r /\ -30 < willr r /\
      supertrend r < close_price r /\ macd_signal r < macd r)%Q) /\
  (forall key qty price,
     In (SendTelegram BuySignalGenerated) evs ->
     In (PlaceOrder key qty "BUY" price) evs ->
     forall pos, In pos positions ->
       ~ (0 < quantity pos /\ endswith (tradingsymbol pos) "CE" = true)) /\
  (forall d,
     In (SendTelegram BuySignalGenerated) evs ->
     has_ce_position positions = false ->
     fst (get_option_instrument_key (close_price r) "CE" index_name interval w) = Some d ->
     In (PlaceOrder (od_instrument_key d) (lots * od_lot_size d) "BUY" (close_price r)) evs).
Proof.
  cbv zeta.
  destruct (buy_signal r) eqn:Hb.
  - rewrite (enter_on_buy_signal r positions w Hb).
    split; [|split].
    + split; [intros _; apply buy_signal_iff; exact Hb | intros _; left; reflexivity].
    + intros key qty price _ Hin pos Hpos [Hq Hs].
      destruct (has_ce_position positions) eqn:Hce.
      * destruct Hin as [Hin|[]]. discriminate.
      * assert (Hex : has_ce_position positions = true)
          by (apply has_ce_position_iff; exists pos; auto).
        congruence.
    + intros d _ Hce Hd. rewrite Hce, Hd. simpl. auto.
  - pose proof (enter_without_buy_signal r positions w Hb) as Hno.
    split; [|split].
    + split; [intros Hin; contradiction|].
      intros Hq. apply buy_signal_iff in Hq. congruence.
    + intros key qty price Hin. contradiction.
    + intros d Hin. contradiction.
Qed.

(** C5: under the call-entry conditions each of the three clauses of the
    call exit is false, and under the put-entry conditions each of the
    three clauses of the put exit is false; so the exit test of a position
    on the side just entered is false.  And when the snapshot holds a
    position with positive quantity and a CE symbol, a signalled call entry
    makes no call but its notification: no instrument lookup, no order. *)
Theorem entry_never_conflicts_with_exit (r : indicator_row) :
  (buy_signal r = true ->
     (~ (willr r < -70 /\ close_price r < supertrend r) /\
      ~ (willr r < -70 /\ macd r < macd_signal r) /\
      ~ (close_price r < supertrend r /\ macd r < macd_signal r))%Q /\
     forall pos, endswith (tradingsymbol pos) "CE" = true -> exit_triggered r pos = false) /\
  (sell_signal r = true ->
     (~ (-30 < willr r /\ supertrend r < close_price r) /\
      ~ (-30 < willr r /\ macd_signal r < macd r) /\
      ~ (supertrend r < close_price r /\ macd r < macd_signal r))%Q /\
     forall pos, endswith (tradingsymbol pos) "PE" = true -> exit_triggered r pos = false) /\
  (forall (positions : list position) (w : W),
     buy_signal r = true ->
     has_ce_position positions = true ->
     enter index_name interval lots r positions (mkEnv w []) =
     (Ok tt, mkEnv w [SendTelegram BuySignalGenerated])).
Proof.
  split; [|split].
  - intros Hb.
    pose proof (proj1 (buy_signal_iff r) Hb) as (_ & Hw & Hs & Hm).
    split.
    + repeat split; intros [H1 H2].
      * exact (willr_not_both _ Hw H1).
      * exact (willr_not_both _ Hw H1).
      * exact (Qlt_asym _ _ Hs H1).
    + intros pos Hsym. unfold exit_triggered.
      rewrite (buy_signal_no_exit_ce r _ Hb). simpl.
      apply endswith_last_two in Hsym. rewrite Hsym. reflexivity.
  - intros Hb.
    pose proof (proj1 (sell_signal_iff r) Hb) as (_ & Hw & Hs & Hm).
    split.
    + repeat split; intros [H1 H2].
      * exact (willr_not_both _ H1 Hw).
      * exact (willr_not_both _ H1 Hw).
      * exact (Qlt_asym _ _ Hs H1).
    + intros pos Hsym. unfold exit_triggered.
      rewrite (sell_signal_no_exit_pe r _ Hb). rewrite orb_false_r.
      apply endswith_last_two in Hsym. rewrite Hsym. reflexivity.
  - intros positions w Hb Hce. unfold enter. rewrite Hb, Hce. reflexivity.
Qed.

(** C7: for a position with positive quantity whose symbol ends in PE,
    the exit loop places its SELL order exactly when
    (willr > -30 and supertrend < close) or (willr > -30 and macd >
    macd_signal) or (supertrend < close and macd < macd_signal). *)
Theorem put_exit_rule (r : indicator_row) (pos : position) (w : W) :
  0 < quantity pos ->
  endswith (tradingsymbol pos) "PE" = true ->
  (In (PlaceOrder (instrument_token pos) (quantity pos) "SELL" 0)
      (trace (snd (exit_position r pos (mkEnv w [])))) <->
   ((-30 < willr r /\ supertrend r < close_price r) \/
    (-30 < willr r /\ macd_signal r < macd r) \/
    (supertrend r < close_price r /\ macd r < macd_signal r))%Q) /\
  (exit_triggered r pos = true <->
   ((-30 < willr r /\ supertrend r < close_price r) \/
    (-30 < willr r /\ macd_signal r < macd r) \/
    (supertrend r < close_price r /\ macd r < macd_signal r))%Q).
Proof.
  intros Hq Hsym.
  assert (Hx : exit_triggered r pos = true <->
               ((-30 < willr r /\ supertrend r < close_price r) \/
                (-30 < willr r /\ macd_signal r < macd r) \/
                (supertrend r < close_price r /\ macd r < macd_signal r))%Q).
  { unfold exit_triggered. apply endswith_last_two in Hsym. rewrite Hsym.
    rewrite orb_true_iff, exit_ce_iff, exit_pe_iff.
    split.
    - intros [[Hce _]|[_ H]]; [discriminate Hce | exact H].
    - intros H. right. split; [reflexivity | exact H]. }
  split; [|exact Hx].
  rewrite <- Hx.
  destruct (exit_position_trace r pos (mkEnv w [])) as [w' ->]. simpl.
  unfold exit_events. apply Z.ltb_lt in Hq. rewrite Hq. simpl.
  destruct (exit_triggered r pos); simpl.
  - split; [reflexivity | auto].
  - split; [contradiction | discriminate].
Qed.

End EntryAndExitRules.

(** ** The append guards *)


Lemma append_live_accepts (buf : list candle) (c : candle) (t : datetime) :
  tail_time buf = Some t ->
  DT.gt (c_datetime c) t = Ok true ->
  append_live buf c = Ok (deque_append buf c).
Proof. intros Ht Hgt. unfold append_live. rewrite Ht, Hgt. reflexivity. Qed.








(** Live loop, main buffer: only resampled candles newer than [prev_time]
    are kept for the append. *)
Lemma newer_than_newer (t : datetime) (l kept : list candle) :
  newer_than t l = Ok kept ->
  Forall (fun c => DT.instant t < DT.instant (c_datetime c)) kept.
Proof.
  revert kept. induction l as [|c l IH]; intros kept; simpl.
  - intros [= <-]. constructor.
  - unfold DT.gt, DT.lt.
    destruct (Bool.eqb _ _); simpl; [|discriminate].
    destruct (newer_than t l) as [rest|]; simpl; [|discriminate].
    intros [= <-].
    destruct (Z.ltb_spec (DT.instant t) (DT.instant (c_datetime c))).
    + constructor; [assumption | apply IH; reflexivity].
    + apply IH; reflexivity.
Qed.





Lemma tail_time_fold_deque_append (batch : list candle) (k : candle) (buf : list candle) :
  tail_time (fold_left deque_append (batch ++ [k]) buf) = Some (c_datetime k).
Proof. rewrite fold_left_app. simpl. apply tail_time_deque_append. Qed.

(** Live loop, main buffer: what [take_resampled] appends. *)
Lemma take_resampled_appends (s : session) (resampled buf : list candle) (prev : datetime) :
  take_resampled s resampled = Ok (buf, prev) ->
  exists kept,
    buf = fold_left deque_append kept (candle_buffer s) /\
    Forall (fun k => DT.instant (prev_time s) < DT.instant (c_datetime k)) kept /\
    prev = match tail_time kept with Some t => t | None => prev_time s end.
Proof.
  unfold take_resampled. destruct resampled as [|r rest].
  - intros [= <- <-]. exists []. repeat split. constructor.
  - destruct (newer_than (prev_time s) (r :: rest)) as [kept|] eqn:Hk;
      cbn [rbind]; [|discriminate].
    intros [= <- <-]. exists kept. repeat split.
    exact (newer_than_newer _ _ _ Hk).
Qed.


(** The appends of the initialisation carry no such test. *)
Lemma append_rows_unguarded (buf : list candle) (c : candle) :
  append_rows buf [c] = deque_append buf (localized c).
Proof. reflexivity. Qed.


(** ** Concrete runs on the paper broker *)


Lemma failed_fetch_skips_rest_of_pass_witness :
  exists e',
    live_pass two_rows no_resample nifty nifty_key 5 1 due_session (mkEnv silent_feed [])
      = (Ok (Continue, due_session), e') /\
    trace e' = [] ++ [FetchOhlc1Min nifty_key; Sleep 5] /\
    world e' = pass_time 5 silent_feed.
Proof.
  apply (failed_fetch_skips_rest_of_pass two_rows no_resample nifty nifty_key 5 1
           due_session (mkEnv silent_feed []) (p_now silent_feed) silent_feed silent_feed).
  - reflexivity.
  - reflexivity.
  - reflexivity.
  - reflexivity.
Defined.

Lemma minute_boundary_moves_only_with_candle_witness :
  exists s' e',
    live_pass two_rows no_resample nifty nifty_key 5 1 due_session (mkEnv silent_feed [])
      = (Ok (Continue, s'), e') /\
    next_interval_end_1min s' = next_interval_end_1min due_session /\
    trace e' = [] ++ [FetchOhlc1Min nifty_key; Sleep 5].
Proof.
  apply (minute_boundary_moves_only_with_candle two_rows no_resample nifty nifty_key 5 1
           due_session (mkEnv silent_feed []) (p_now silent_feed) silent_feed silent_feed
           None).
  - reflexivity.
  - reflexivity.
  - reflexivity.
  - reflexivity.
Defined.

(** C3, as stated, fails: at 10:00:02 the 1-minute boundary 10:00 is
    reached and the resample boundary too; the fetch returns nothing, and
    after the pass the 1-minute boundary is still 10:00. *)
Lemma boundary_not_advanced_on_failed_fetch :
  DT.ge (p_now silent_feed) (next_interval_end_1min due_session) = Ok true /\
  fst (fetch_ohlc_1min_data nifty_key silent_feed) = None /\
  exists s' e',
    live_pass two_rows no_resample nifty nifty_key 5 1 due_session (mkEnv silent_feed [])
      = (Ok (Continue, s'), e') /\
    next_interval_end_1min s' = aware_at 10 0.
Proof.
  split; [reflexivity|]. split; [reflexivity|].
  eexists _, _. split; reflexivity.
Qed.


Lemma exits_use_the_fetched_snapshot_witness :
  exists e' entry,
    evaluate nifty 5 1 call_row (mkEnv one_put []) = (Ok tt, e') /\
    trace e' = [] ++ FetchPositions :: entry ++ flat_map (exit_events call_row) [open_put] /\
    Forall (fun ev => is_entry_event ev = true) entry /\
    filter is_fetch_positions
      (FetchPositions :: entry ++ flat_map (exit_events call_row) [open_put])
      = [FetchPositions] /\
    (forall tok q p,
       In (PlaceOrder tok q "SELL" p) (entry ++ flat_map (exit_events call_row) [open_put]) ->
       exists pos, In pos [open_put] /\ tok = instrument_token pos /\ q = quantity pos).
Proof.
  apply (exits_use_the_fetched_snapshot nifty 5 1 call_row (mkEnv one_put [])
           [open_put] one_put).
  reflexivity.
Defined.

(** The same run in full: the call is bought, the put of the snapshot is
    sold, and the call position the broker now holds is not touched. *)
Example evaluate_call_entry_with_open_put :
  let run := evaluate nifty 5 1 call_row (mkEnv one_put []) in
  trace (snd run) =
    [FetchPositions;
     SendTelegram BuySignalGenerated;
     GetOptionInstrumentKey 100 "CE" nifty 5;
     PlaceOrder "NSE_FO|2002" 25 "BUY" 100;
     LogOrderToExcel "BUY" "NSE_FO|2002" 100 1 24500 "CE" 25 738003;
     SendTelegram (ExitTriggered "NIFTY24500PE");
     PlaceOrder "NSE_FO|1001" 50 "SELL" 0;
     UpdatePnl 2] /\
  p_positions (world (snd run)) = [mkPosition 25 "NSE_FO|2002" "NSE_FO|2002"].
Proof. split; reflexivity. Qed.

Lemma put_exit_rule_witness :
  (In (PlaceOrder (instrument_token open_put) (quantity open_put) "SELL" 0)
      (trace (snd (exit_position call_row open_put (mkEnv one_put [])))) <->
   ((-30 < willr call_row /\ supertrend call_row < close_price call_row) \/
    (-30 < willr call_row /\ macd_signal call_row < macd call_row) \/
    (supertrend call_row < close_price call_row /\ macd call_row < macd_signal call_row))%Q) /\
  (exit_triggered call_row open_put = true <->
   ((-30 < willr call_row /\ supertrend call_row < close_price call_row) \/
    (-30 < willr call_row /\ macd_signal call_row < macd call_row) \/
    (supertrend call_row < close_price call_row /\ macd call_row < macd_signal call_row))%Q).
Proof.
  apply (put_exit_rule call_row open_put one_put).
  - reflexivity.
  - reflexivity.
Defined.

(** * Further properties of the session code *)

(** ** The interval clock on naive reference times *)

Lemma add_minutes_instant (d r : datetime) (m : Z) :
  DT.add_minutes d m = Ok r ->
  DT.instant r = DT.instant d + m * DT.us_per_minute.
Proof.
  unfold DT.add_minutes. destruct (_ && _); [|discriminate].
  intros [= <-]. unfold DT.instant. simpl.
  pose proof (Z.div_mod (DT.us d + m * DT.us_per_minute) DT.us_per_day) as H.
  assert (Hd : DT.us_per_day <> 0) by discriminate.
  specialize (H Hd). lia.
Qed.

(** What a successful call from 09:15 on went through. *)
Lemma round_ok_after_open (interval_minutes : Z) (now_dt r : datetime) :
  DT.aware now_dt = false ->
  market_open <= DT.us now_dt ->
  _round_to_next_interval interval_minutes now_dt = Ok r ->
  interval_minutes <> 0 /\
  float_overflows (interval_minutes * 60) = false /\
  DT.add_minutes (origin now_dt)
    (((DT.us now_dt - market_open) / (interval_minutes * 60 * DT.us_per_second) + 1)
     * interval_minutes) = Ok r.
Proof.
  intros Hn Hge Hr.
  assert (Hi : interval_minutes <> 0).
  { intros ->. unfold _round_to_next_interval, DT.sub in Hr.
    fold (origin now_dt) in Hr. rewrite Hn in Hr. simpl in Hr.
    rewrite instant_same_day in Hr.
    destruct (Z.ltb_spec (DT.us now_dt - market_open) 0); [lia | discriminate]. }
  assert (Hf : float_overflows (interval_minutes * 60) = false).
  { destruct (float_overflows (interval_minutes * 60)) eqn:Hf; [|reflexivity].
    unfold _round_to_next_interval, DT.sub in Hr.
    fold (origin now_dt) in Hr. rewrite Hn in Hr. simpl in Hr.
    rewrite instant_same_day in Hr.
    destruct (Z.ltb_spec (DT.us now_dt - market_open) 0); [lia|].
    destruct (Z.eqb_spec (interval_minutes * 60) 0); [lia|].
    rewrite Hf in Hr. discriminate. }
  split; [exact Hi|]. split; [exact Hf|].
  rewrite <- (round_after_open interval_minutes now_dt Hn Hge Hi Hf). exact Hr.
Qed.

(** From 09:15 on: the boundary is after the reference time, at most one
    interval after it, and a whole number of intervals after 09:15. *)
Lemma round_instant_bounds (interval_minutes : Z) (now_dt r : datetime) :
  DT.aware now_dt = false ->
  0 < interval_minutes ->
  market_open <= DT.us now_dt ->
  _round_to_next_interval interval_minutes now_dt = Ok r ->
  DT.instant now_dt < DT.instant r /\
  DT.instant r <= DT.instant now_dt + interval_minutes * DT.us_per_minute /\
  exists n, 0 < n /\
    DT.instant r = DT.instant (origin now_dt) + n * (interval_minutes * DT.us_per_minute).
Proof.
  intros Hn Hi Hge Hr.
  destruct (round_ok_after_open interval_minutes now_dt r Hn Hge Hr) as (_ & _ & Hadd).
  apply add_minutes_instant in Hadd.
  pose proof (instant_same_day now_dt) as Hsame.
  set (E := DT.us now_dt - market_open) in *.
  set (P := interval_minutes * 60 * DT.us_per_second) in *.
  assert (HP : 0 < P) by (unfold P, DT.us_per_second; lia).
  assert (HPm : interval_minutes * DT.us_per_minute = P)
    by (unfold P, DT.us_per_minute; ring).
  pose proof (Z.mul_div_le E P HP) as Hlo.
  pose proof (Z.mul_succ_div_gt E P HP) as Hhi.
  assert (HE : 0 <= E) by (unfold E; lia).
  assert (Hk : 0 <= E / P) by (apply Z.div_pos; lia).
  rewrite HPm.
  assert (Hinst : DT.instant r = DT.instant (origin now_dt) + (E / P + 1) * P).
  { rewrite Hadd. unfold P, DT.us_per_minute. ring. }
  split; [|split].
  - rewrite Hinst. nia.
  - rewrite Hinst. nia.
  - exists (E / P + 1). split; [lia | exact Hinst].
Qed.

(** X1: on a naive reference time and a positive interval, whatever the
    clock returns is the day's 09:15 when the reference time is earlier,
    and otherwise a boundary strictly after the reference time, at most one
    interval after it, and a whole positive number of intervals after
    09:15. *)
Theorem next_boundary_is_ahead (interval_minutes : Z) (now_dt r : datetime) :
  DT.aware now_dt = false ->
  0 < interval_minutes ->
  _round_to_next_interval interval_minutes now_dt = Ok r ->
  (DT.us now_dt < market_open -> r = origin now_dt) /\
  (market_open <= DT.us now_dt ->
     DT.instant now_dt < DT.instant r /\
     DT.instant r <= DT.instant now_dt + interval_minutes * DT.us_per_minute /\
     exists n, 0 < n /\
       DT.instant r = DT.instant (origin now_dt) + n * (interval_minutes * DT.us_per_minute)).
Proof.
  intros Hn Hi Hr. split.
  - intros Hlt. rewrite (round_before_open interval_minutes now_dt Hn Hlt) in Hr.
    injection Hr as <-. reflexivity.
  - intros Hge. exact (round_instant_bounds interval_minutes now_dt r Hn Hi Hge Hr).
Qed.

Lemma next_boundary_is_ahead_witness :
  let now_dt := DT.mk 738000 ((10 * 3600 + 2 * 60 + 30) * 1000000 + 500000) false in
  let r := DT.mk 738000 (DT.time_of 10 5) false in
  (DT.us now_dt < market_open -> r = origin now_dt) /\
  (market_open <= DT.us now_dt ->
     DT.instant now_dt < DT.instant r /\
     DT.instant r <= DT.instant now_dt + 5 * DT.us_per_minute /\
     exists n, 0 < n /\
       DT.instant r = DT.instant (origin now_dt) + n * (5 * DT.us_per_minute)).
Proof.
  apply (next_boundary_is_ahead 5
           (DT.mk 738000 ((10 * 3600 + 2 * 60 + 30) * 1000000 + 500000) false)
           (DT.mk 738000 (DT.time_of 10 5) false)).
  - reflexivity.
  - reflexivity.
  - vm_compute. reflexivity.
Defined.

(** X2: fed its own answer, the clock moves one interval on: when a naive
    reference time from 09:15 on yields a boundary on the same day, the
    clock at that boundary returns the boundary plus one interval. *)
Theorem boundary_of_boundary (interval_minutes : Z) (now_dt r : datetime) :
  DT.aware now_dt = false ->
  market_open <= DT.us now_dt ->
  0 < interval_minutes ->
  _round_to_next_interval interval_minutes now_dt = Ok r ->
  DT.day r = DT.day now_dt ->
  _round_to_next_interval interval_minutes r = DT.add_minutes r interval_minutes.
Proof.
  intros Hn Hge Hi Hr Hday.
  destruct (round_ok_after_open interval_minutes now_dt r Hn Hge Hr) as (Hi0 & Hf & Hadd).
  pose proof (add_minutes_instant _ _ _ Hadd) as Hinst.
  destruct (add_minutes_whole (origin now_dt) r _ eq_refl Hadd) as [_ Haware].
  simpl in Haware.
  set (E := DT.us now_dt - market_open) in *.
  set (P := interval_minutes * 60 * DT.us_per_second) in *.
  assert (HP : 0 < P) by (unfold P, DT.us_per_second; lia).
  assert (Hk : 0 <= E / P) by (apply Z.div_pos; unfold E; lia).
  assert (Hus : DT.us r = market_open + (E / P + 1) * P).
  { unfold DT.instant, origin, DT.combine in Hinst. simpl in Hinst.
    rewrite Hday in Hinst.
    replace ((E / P + 1) * P)
      with ((E / P + 1) * interval_minutes * DT.us_per_minute)
      by (unfold P, DT.us_per_minute; ring).
    lia. }
  assert (Hge' : market_open <= DT.us r) by nia.
  rewrite (round_after_open interval_minutes r Haware Hge' Hi0 Hf).
  fold P. rewrite Hus.
  replace (market_open + (E / P + 1) * P - market_open) with ((E / P + 1) * P) by ring.
  rewrite Z.div_mul by lia.
  unfold origin. rewrite Hday.
  unfold DT.add_minutes, DT.combine. cbn [DT.day DT.us DT.aware].
  rewrite Hus, Haware, Hday.
  replace (market_open + (E / P + 1 + 1) * interval_minutes * DT.us_per_minute)
    with (market_open + (E / P + 1) * P + interval_minutes * DT.us_per_minute)
    by (unfold P, DT.us_per_minute; ring).
  reflexivity.
Qed.

Lemma boundary_of_boundary_witness :
  _round_to_next_interval 5 (DT.mk 738000 (DT.time_of 10 5) false)
  = DT.add_minutes (DT.mk 738000 (DT.time_of 10 5) false) 5.
Proof.
  apply (boundary_of_boundary 5
           (DT.mk 738000 ((10 * 3600 + 2 * 60 + 30) * 1000000 + 500000) false)
           (DT.mk 738000 (DT.time_of 10 5) false)).
  - reflexivity.
  - vm_compute. discriminate.
  - reflexivity.
  - vm_compute. reflexivity.
  - reflexivity.
Defined.

(** X3: an interval of 0 minutes goes unnoticed before 09:15, where the
    clock returns the origin without dividing, and raises
    [ZeroDivisionError] from 09:15 on. *)
Theorem zero_interval_raises_once_open (now_dt : datetime) :
  DT.aware now_dt = false ->
  (DT.us now_dt < market_open ->
     _round_to_next_interval 0 now_dt = Ok (origin now_dt)) /\
  (market_open <= DT.us now_dt ->
     _round_to_next_interval 0 now_dt = Raise ZeroDivisionError).
Proof.
  intros Hn. split.
  - apply round_before_open. exact Hn.
  - intros Hge. unfold _round_to_next_interval, DT.sub.
    fold (origin now_dt). rewrite Hn. simpl. rewrite instant_same_day.
    destruct (Z.ltb_spec (DT.us now_dt - market_open) 0); [lia | reflexivity].
Qed.

Lemma zero_interval_raises_once_open_witness :
  _round_to_next_interval 0 (naive_at 10 0) = Raise ZeroDivisionError.
Proof.
  apply (zero_interval_raises_once_open (naive_at 10 0)).
  - reflexivity.
  - vm_compute. discriminate.
Defined.

(** ** The session as a whole *)

Section SessionOutcome.

Context {W : Type} {E : Environment W}.
Variable indicators : bool -> list candle -> list indicator_row.
Variable resample : Z -> list candle -> list candle.
Variables (index_name instrument_key_index : string) (interval lots : Z).


(** X5: a pass that reads a time of day of 15:31 or later ends the loop:
    it sends the closing notification, runs the final valuation update and
    breaks, with no candle fetch, no position fetch and no order, whatever
    boundaries are due. *)
Theorem market_close_ends_session
    (n : nat) (s : session) (e : env W) (now : datetime) (w1 : W) :
  clock_now (world e) = (now, w1) ->
  market_close <= DT.us now ->
  live_loop indicators resample index_name instrument_key_index interval lots (S n) s e =
  (Ok MarketClosed,
   mkEnv w1 (trace e ++ [SendTelegram SessionEnded; UpdatePnl 2])).
Proof.
  intros Hnow Hclose. cbn [live_loop]. unfold bind at 1.
  unfold live_pass, now_ist, peek. unfold bind at 1. rewrite Hnow.
  destruct (Z.leb_spec market_close (DT.us now)); [|lia].
  unfold bind, emit, ret. cbn [world trace]. rewrite <- app_assoc. reflexivity.
Qed.

(** X6: the resample branch needs both the boundary and enough 1-minute
    candles.  When the boundary is not reached, or the fine buffer holds
    fewer candles than the interval has minutes, the rest of the pass is
    the 5-second sleep alone: no valuation update, no evaluation, and the
    resample boundary and both buffers stay as they were. *)
Theorem resample_waits_for_candles
    (now : datetime) (s : session) (e : env W) (due : bool) :
  DT.ge now (next_resample_interval_end s) = Ok due ->
  due = false \/ Z.of_nat (length (live_buffer s)) < interval ->
  resample_step indicators resample index_name interval lots now s e =
  (Ok s, mkEnv (pass_time 5 (world e)) (trace e ++ [Sleep 5])).
Proof.
  intros Hdue Hcase. unfold resample_step. unfold bind at 1. unfold lift.
  rewrite Hdue.
  assert (Hc : due && (interval <=? Z.of_nat (length (live_buffer s))) = false).
  { destruct Hcase as [-> | Hlt]; [reflexivity|].
    destruct (Z.leb_spec interval (Z.of_nat (length (live_buffer s)))); [lia|].
    apply andb_false_r. }
  rewrite Hc. reflexivity.
Qed.

End SessionOutcome.

Lemma market_close_ends_session_witness :
  live_loop two_rows no_resample nifty nifty_key 5 1 3 due_session (mkEnv closing_bell []) =
  (Ok MarketClosed,
   mkEnv closing_bell ([] ++ [SendTelegram SessionEnded; UpdatePnl 2])).
Proof.
  apply (market_close_ends_session two_rows no_resample nifty nifty_key 5 1 2
           due_session (mkEnv closing_bell []) (p_now closing_bell) closing_bell).
  - reflexivity.
  - vm_compute. discriminate.
Defined.

Lemma resample_waits_for_candles_witness :
  resample_step two_rows no_resample nifty 5 1 before_boundary due_session
    (mkEnv silent_feed []) =
  (Ok due_session, mkEnv (pass_time 5 silent_feed) ([] ++ [Sleep 5])).
Proof.
  apply (resample_waits_for_candles two_rows no_resample nifty 5 1 before_boundary
           due_session (mkEnv silent_feed []) false).
  - reflexivity.
  - left. reflexivity.
Defined.

(** ** More on the evaluation *)

Lemma has_pe_position_iff (positions : list position) :
  has_pe_position positions = true <->
  exists pos, In pos positions /\ 0 < quantity pos /\
              endswith (tradingsymbol pos) "PE" = true.
Proof.
  unfold has_pe_position. rewrite existsb_exists.
  split; intros (pos & Hin & H); exists pos; split; auto.
  - apply andb_true_iff in H. destruct H as [Hq Hs].
    apply Z.ltb_lt in Hq. auto.
  - destruct H as [Hq Hs]. apply andb_true_iff. split; [apply Z.ltb_lt|]; auto.
Qed.

(** The two entry conditions exclude each other (willr cannot be above -30
    and below -70). *)
Lemma signals_exclusive (r : indicator_row) :
  buy_signal r = true -> sell_signal r = false.
Proof.
  intros Hb. apply buy_signal_iff in Hb. destruct Hb as (_ & Hw & _).
  apply not_true_is_false. intros Hs. apply sell_signal_iff in Hs.
  destruct Hs as (_ & Hw' & _). exact (willr_not_both _ Hw Hw').
Qed.

Section MoreEvaluation.

Context {W : Type} {E : Environment W}.
Variables (index_name : string) (interval lots : Z).

(** The calls of the entry side when the put entry is signalled. *)
Lemma enter_on_sell_signal (r : indicator_row) (positions : list position) (w : W) :
  sell_signal r = true ->
  trace (snd (enter index_name interval lots r positions (mkEnv w []))) =
  SendTelegram SellSignalGenerated ::
  (if has_pe_position positions then []
   else
     GetOptionInstrumentKey (close_price r) "PE" index_name interval ::
     match fst (get_option_instrument_key (close_price r) "PE" index_name interval w) with
     | Some d =>
         [PlaceOrder (od_instrument_key d) (lots * od_lot_size d) "BUY" (close_price r);
          LogOrderToExcel "BUY" (od_instrument_key d) (close_price r) lots
            (od_strike d) "PE" (od_lot_size d) (od_expiry_date d)]
     | None => []
     end).
Proof.
  intros Hs. unfold enter.
  assert (Hb : buy_signal r = false).
  { destruct (buy_signal r) eqn:Hb; [|reflexivity].
    rewrite (signals_exclusive r Hb) in Hs. discriminate. }
  rewrite Hb, Hs.
  unfold bind at 1. unfold emit at 1. simpl.
  destruct (has_pe_position positions); simpl; [reflexivity|].
  unfold bind at 1. unfold ask at 1. simpl.
  destruct (get_option_instrument_key _ _ _ _ _) as [[d|] w1]; reflexivity.
Qed.

Lemma enter_without_sell_signal (r : indicator_row) (positions : list position) (w : W) :
  sell_signal r = false ->
  ~ In (SendTelegram SellSignalGenerated)
       (trace (snd (enter index_name interval lots r positions (mkEnv w [])))).
Proof.
  intros Hs. unfold enter. rewrite Hs.
  destruct (buy_signal r); [|simpl; tauto].
  unfold bind at 1. unfold emit at 1. simpl.
  destruct (negb (has_ce_position positions)).
  - unfold bind at 1. unfold ask at 1. simpl.
    destruct (get_option_instrument_key _ _ _ _ _) as [[d|] w1]; simpl;
      intuition discriminate.
  - simpl. intuition discriminate.
Qed.

(** X7: the put entry is signalled exactly when adx > adxema,
    willr < -70, supertrend > close and macd < macd_signal.  When it is
    signalled, a BUY order among the calls of the entry side implies that
    no position of the snapshot has a positive quantity and a symbol ending
    in PE; and with no such position and the PE instrument resolved, the
    order is placed for lots times the lot size at the close. *)
Theorem put_entry_rule (r : indicator_row) (positions : list position) (w : W) :
  let evs := trace (snd (enter index_name interval lots r positions (mkEnv w []))) in
  (In (SendTelegram SellSignalGenerated) evs <->
     (adxema r < adx r /\ willr r < -70 /\
      close_price r < supertrend r /\ macd r < macd_signal r)%Q) /\
  (forall key qty price,
     In (SendTelegram SellSignalGenerated) evs ->
     In (PlaceOrder key qty "BUY" price) evs ->
     forall pos, In pos positions ->
       ~ (0 < quantity pos /\ endswith (tradingsymbol pos) "PE" = true)) /\
  (forall d,
     In (SendTelegram SellSignalGenerated) evs ->
     has_pe_position positions = false ->
     fst (get_option_instrument_key (close_price r) "PE" index_name interval w) = Some d ->
     In (PlaceOrder (od_instrument_key d) (lots * od_lot_size d) "BUY" (close_price r)) evs).
Proof.
  cbv zeta.
  destruct (sell_signal r) eqn:Hs.
  - rewrite (enter_on_sell_signal r positions w Hs).
    split; [|split].
    + split; [intros _; apply sell_signal_iff; exact Hs | intros _; left; reflexivity].
    + intros key qty price _ Hin pos Hpos [Hq Hsym].
      destruct (has_pe_position positions) eqn:Hpe.
      * destruct Hin as [Hin|[]]. discriminate.
      * assert (Hex : has_pe_position positions = true)
          by (apply has_pe_position_iff; exists pos; auto).
        congruence.
    + intros d _ Hpe Hd. rewrite Hpe, Hd. simpl. auto.
  - pose proof (enter_without_sell_signal r positions w Hs) as Hno.
    split; [|split].
    + split; [intros Hin; contradiction|].
      intros Hq. apply sell_signal_iff in Hq. congruence.
    + intros key qty price Hin. contradiction.
    + intros d Hin. contradiction.
Qed.

(** X8: for a position with positive quantity whose symbol ends in CE, the
    exit loop places its SELL order, for the whole quantity at price 0,
    exactly when (willr < -70 and supertrend > close) or (willr < -70 and
    macd < macd_signal) or (supertrend > close and macd < macd_signal). *)
Theorem call_exit_rule (r : indicator_row) (pos : position) (w : W) :
  0 < quantity pos ->
  endswith (tradingsymbol pos) "CE" = true ->
  (In (PlaceOrder (instrument_token pos) (quantity pos) "SELL" 0)
      (trace (snd (exit_position r pos (mkEnv w [])))) <->
   ((willr r < -70 /\ close_price r < supertrend r) \/
    (willr r < -70 /\ macd r < macd_signal r) \/
    (close_price r < supertrend r /\ macd r < macd_signal r))%Q).
Proof.
  intros Hq Hsym.
  assert (Hx : exit_triggered r pos = true <->
               ((willr r < -70 /\ close_price r < supertrend r) \/
                (willr r < -70 /\ macd r < macd_signal r) \/
                (close_price r < supertrend r /\ macd r < macd_signal r))%Q).
  { unfold exit_triggered. apply endswith_last_two in Hsym. rewrite Hsym.
    rewrite orb_true_iff, exit_ce_iff, exit_pe_iff.
    split.
    - intros [[_ H]|[Hpe _]]; [exact H | discriminate Hpe].
    - intros H. left. split; [reflexivity | exact H]. }
  rewrite <- Hx.
  destruct (exit_position_trace r pos (mkEnv w [])) as [w' ->]. simpl.
  unfold exit_events. apply Z.ltb_lt in Hq. rewrite Hq. simpl.
  destruct (exit_triggered r pos); simpl.
  - split; [reflexivity | auto].
  - split; [contradiction | discriminate].
Qed.

(** X9: the exit loop leaves alone every position whose quantity is zero
    or negative and every position whose symbol ends in neither CE nor PE:
    for such a position it makes no call at all, whatever the indicators
    are. *)
Theorem exit_loop_skips_flat_and_foreign (r : indicator_row) (pos : position) (e : env W) :
  quantity pos <= 0 \/
  (endswith (tradingsymbol pos) "CE" = false /\
   endswith (tradingsymbol pos) "PE" = false) ->
  exit_position r pos e = (Ok tt, e).
Proof.
  intros Hcase. unfold exit_position.
  destruct (Z.ltb_spec 0 (quantity pos)) as [Hq|Hq]; [|reflexivity].
  destruct Hcase as [Hle|[Hce Hpe]]; [lia|].
  assert (Hx : exit_triggered r pos = false).
  { unfold exit_triggered. apply orb_false_iff. split; apply not_true_is_false.
    - intros H. apply exit_ce_iff in H. destruct H as [H _].
      apply endswith_last_two in H. congruence.
    - intros H. apply exit_pe_iff in H. destruct H as [H _].
      apply endswith_last_two in H. congruence. }
  rewrite Hx. reflexivity.
Qed.

Lemma enter_buy_count (r : indicator_row) (positions : list position) (e : env W) :
  exists e' evs,
    enter index_name interval lots r positions e = (Ok tt, e') /\
    trace e' = trace e ++ evs /\
    (length (filter is_buy_order evs) <= 1)%nat.
Proof.
  unfold enter.
  destruct (buy_signal r); [|destruct (sell_signal r)].
  - unfold bind at 1. unfold emit at 1. simpl.
    destruct (negb (has_ce_position positions)).
    + unfold bind at 1. unfold ask at 1. simpl.
      destruct (get_option_instrument_key _ _ _ _ _) as [[d|] w1].
      * unfold bind, tell, emit. simpl. eexists _, [_; _; _; _].
        split; [reflexivity|]. simpl. rewrite <- !app_assoc. simpl.
        split; [reflexivity|]. simpl. lia.
      * unfold ret. eexists _, [_; _].
        split; [reflexivity|]. simpl. rewrite <- !app_assoc. simpl.
        split; [reflexivity|]. simpl. lia.
    + unfold ret. eexists _, [_]. split; [reflexivity|]. simpl.
      split; [reflexivity|]. simpl. lia.
  - unfold bind at 1. unfold emit at 1. simpl.
    destruct (negb (has_pe_position positions)).
    + unfold bind at 1. unfold ask at 1. simpl.
      destruct (get_option_instrument_key _ _ _ _ _) as [[d|] w1].
      * unfold bind, tell, emit. simpl. eexists _, [_; _; _; _].
        split; [reflexivity|]. simpl. rewrite <- !app_assoc. simpl.
        split; [reflexivity|]. simpl. lia.
      * unfold ret. eexists _, [_; _].
        split; [reflexivity|]. simpl. rewrite <- !app_assoc. simpl.
        split; [reflexivity|]. simpl. lia.
    + unfold ret. eexists _, [_]. split; [reflexivity|]. simpl.
      split; [reflexivity|]. simpl. lia.
  - unfold ret. exists e, []. rewrite app_nil_r. simpl. auto.
Qed.

Lemma exit_events_no_buy (r : indicator_row) (positions : list position) :
  filter is_buy_order (flat_map (exit_events r) positions) = [].
Proof.
  induction positions as [|pos rest IH]; [reflexivity|].
  simpl. rewrite filter_app, IH, app_nil_r.
  unfold exit_events. destruct (_ && _); reflexivity.
Qed.

(** X10: one evaluation places at most one BUY order, whatever the
    indicators, the positions and the broker's answers are: the two entry
    branches exclude each other and the exit loop only sells. *)
Theorem at_most_one_entry_per_evaluation (r : indicator_row) (w : W) :
  (length (filter is_buy_order
     (trace (snd (evaluate index_name interval lots r (mkEnv w []))))) <= 1)%nat.
Proof.
  unfold evaluate. unfold bind at 1. unfold ask.
  cbn [world trace].
  destruct (fetch_positions w) as [positions w1].
  unfold bind at 1.
  destruct (enter_buy_count r positions (mkEnv w1 ([] ++ [FetchPositions])))
    as (e1 & evs & -> & Htr & Hcount).
  destruct (exit_loop_trace r positions e1) as [w2 ->].
  cbn [snd trace]. rewrite Htr. cbn [trace].
  rewrite !filter_app, exit_events_no_buy, app_nil_r. simpl. exact Hcount.
Qed.

(** X11: when the broker cannot resolve the option instrument, the entry
    side stops after the lookup: its calls are notifications and lookups
    only, so no order is placed and nothing is written to the order log. *)
Theorem unresolved_option_places_no_order
    (r : indicator_row) (positions : list position) (w : W) :
  (forall option_type,
     fst (get_option_instrument_key (close_price r) option_type index_name interval w)
       = None) ->
  forallb is_notice_or_lookup
    (trace (snd (enter index_name interval lots r positions (mkEnv w [])))) = true.
Proof.
  intros Hnone. unfold enter.
  destruct (buy_signal r); [|destruct (sell_signal r)].
  - unfold bind at 1. unfold emit at 1. simpl.
    destruct (negb (has_ce_position positions)); [|reflexivity].
    unfold bind at 1. unfold ask at 1. simpl.
    specialize (Hnone "CE"%string).
    destruct (get_option_instrument_key _ _ _ _ _) as [[d|] w1];
      [discriminate Hnone | reflexivity].
  - unfold bind at 1. unfold emit at 1. simpl.
    destruct (negb (has_pe_position positions)); [|reflexivity].
    unfold bind at 1. unfold ask at 1. simpl.
    specialize (Hnone "PE"%string).
    destruct (get_option_instrument_key _ _ _ _ _) as [[d|] w1];
      [discriminate Hnone | reflexivity].
  - reflexivity.
Qed.

End MoreEvaluation.

Lemma call_exit_rule_witness :
  In (PlaceOrder (instrument_token open_call) (quantity open_call) "SELL" 0)
     (trace (snd (exit_position put_row open_call (mkEnv one_call [])))) <->
  ((willr put_row < -70 /\ close_price put_row < supertrend put_row) \/
   (willr put_row < -70 /\ macd put_row < macd_signal put_row) \/
   (close_price put_row < supertrend put_row /\ macd put_row < macd_signal put_row))%Q.
Proof.
  apply (call_exit_rule put_row open_call one_call).
  - reflexivity.
  - reflexivity.
Defined.

Lemma exit_loop_skips_flat_and_foreign_witness :
  exit_position call_row flat_position (mkEnv one_put []) = (Ok tt, mkEnv one_put []).
Proof.
  apply (exit_loop_skips_flat_and_foreign call_row flat_position (mkEnv one_put [])).
  left. vm_compute. discriminate.
Defined.

Lemma unresolved_option_places_no_order_witness :
  forallb is_notice_or_lookup
    (trace (snd (enter nifty 5 1 call_row [] (mkEnv silent_feed [])))) = true.
Proof.
  apply (unresolved_option_places_no_order nifty 5 1 call_row [] silent_feed).
  intros option_type. reflexivity.
Defined.

(** ** Buffer sizes and the resample marker *)

Lemma length_deque_append (buf : list candle) (c : candle) :
  (length (deque_append buf c) <= maxlen)%nat.
Proof.
  unfold deque_append. rewrite length_skipn, length_app. simpl. lia.
Qed.

Lemma length_fold_deque_append (batch buf : list candle) :
  (length buf <= maxlen)%nat ->
  (length (fold_left deque_append batch buf) <= maxlen)%nat.
Proof.
  revert buf. induction batch as [|k rest IH]; intros buf Hbuf; [exact Hbuf|].
  simpl. apply IH. apply length_deque_append.
Qed.

Lemma length_append_rows (frame buf : list candle) :
  (length buf <= maxlen)%nat ->
  (length (append_rows buf frame) <= maxlen)%nat.
Proof.
  unfold append_rows. revert buf.
  induction frame as [|k rest IH]; intros buf Hbuf; [exact Hbuf|].
  simpl. apply IH. apply length_deque_append.
Qed.

(** X12: neither buffer ever holds more than 2000 candles.  An append to a
    full buffer drops the oldest candle, and the bound is kept by the
    row-by-row appends of the initialisation, by the guarded append of the
    live loop and by the append of resampled candles. *)
Theorem buffers_stay_within_maxlen (buf : list candle) (c : candle) :
  (length (deque_append buf c) <= maxlen)%nat /\
  (length buf = maxlen -> deque_append buf c = tl buf ++ [c]) /\
  (forall frame, (length buf <= maxlen)%nat ->
     (length (append_rows buf frame) <= maxlen)%nat) /\
  (forall buf', (length buf <= maxlen)%nat ->
     append_live buf c = Ok buf' -> (length buf' <= maxlen)%nat) /\
  (forall s resampled buf' prev,
     (length (candle_buffer s) <= maxlen)%nat ->
     take_resampled s resampled = Ok (buf', prev) ->
     (length buf' <= maxlen)%nat).
Proof.
  split; [apply length_deque_append|]. split; [|split; [|split]].
  - intros Hfull. rewrite deque_append_snoc, Hfull.
    replace (maxlen + 1 - maxlen)%nat with 1%nat by lia.
    destruct buf; reflexivity.
  - intros frame Hbuf. apply length_append_rows. exact Hbuf.
  - intros buf' Hbuf. unfold append_live.
    destruct (tail_time buf) as [t|].
    + destruct (DT.gt (c_datetime c) t) as [[|]|]; cbn [rbind]; intros [= <-];
        [apply length_deque_append | exact Hbuf].
    + intros [= <-]. apply length_deque_append.
  - intros s resampled buf' prev Hbuf Htake.
    destruct (take_resampled_appends s resampled buf' prev Htake) as (kept & -> & _).
    apply length_fold_deque_append. exact Hbuf.
Qed.

(** X13: the marker of the last incorporated main candle never moves back.
    A resample either finds nothing newer, and then leaves the main buffer
    and the marker untouched, or it appends, and then the marker is
    strictly later than before and is the timestamp of the buffer's new
    tail. *)
Theorem marker_only_moves_forward
    (s : session) (resampled buf : list candle) (prev : datetime) :
  take_resampled s resampled = Ok (buf, prev) ->
  (buf = candle_buffer s /\ prev = prev_time s) \/
  (DT.instant (prev_time s) < DT.instant prev /\ tail_time buf = Some prev).
Proof.
  intros Htake.
  destruct (take_resampled_appends s resampled buf prev Htake) as (kept & -> & Hnew & ->).
  destruct kept as [|k0 kept0].
  - left. split; reflexivity.
  - right.
    destruct (exists_last (l := k0 :: kept0)) as (front & k & Heq); [discriminate|].
    rewrite Heq in *. rewrite tail_time_snoc, tail_time_fold_deque_append.
    split; [|reflexivity].
    rewrite Forall_forall in Hnew. apply Hnew. apply in_or_app. right. left. reflexivity.
Qed.

Lemma marker_only_moves_forward_witness :
  (map localized yesterday = candle_buffer due_session /\
   aware_at 9 50 = prev_time due_session) \/
  (DT.instant (prev_time due_session) < DT.instant (aware_at 9 50) /\
   tail_time (map localized yesterday) = Some (aware_at 9 50)).
Proof.
  apply (marker_only_moves_forward due_session
           [flat_candle (aware_at 9 45); flat_candle (aware_at 9 50)]
           (map localized yesterday) (aware_at 9 50)).
  vm_compute. reflexivity.
Defined.

(** ** More on the trend-following band *)

Lemma length_band_loop (rows : list (Q * band)) :
  forall b0, length (band_loop b0 rows) = length rows.
Proof.
  induction rows as [|[close raw] rest IH]; intros b0; [reflexivity|].
  simpl. rewrite IH. reflexivity.
Qed.

Lemma length_supertrend_bands (multiplier : Q) (df : list candle) (atr : list Q) :
  length (supertrend_bands multiplier df atr) = Nat.min (length df) (length atr).
Proof.
  unfold supertrend_bands. rewrite <- length_combine.
  destruct (List.combine df atr) as [|r0 rest]; [reflexivity|].
  simpl. rewrite length_band_loop, length_map. reflexivity.
Qed.

(** X14: the new column has one value per row (as many as the frame and
    the ATR series both have), and its first value is always the lower
    band of the first row, (high + low) / 2 - multiplier * atr: the series
    starts bullish whatever the prices are. *)
Theorem supertrend_column_shape (multiplier : Q) (df : list candle) (atr : list Q) :
  length (calculate_supertrend multiplier df atr) = Nat.min (length df) (length atr) /\
  (forall c a, hd_error df = Some c -> hd_error atr = Some a ->
     hd_error (calculate_supertrend multiplier df atr) =
     Some ((c_high c + c_low c) / 2 - multiplier * a)%Q).
Proof.
  split.
  - unfold calculate_supertrend. rewrite length_map. apply length_supertrend_bands.
  - intros c a Hc Ha.
    destruct df as [|c0 df]; [discriminate|]. destruct atr as [|a0 atr]; [discriminate|].
    injection Hc as <-. injection Ha as <-. reflexivity.
Qed.

(** X15: over a stretch of candles each of which closes within the
    previous final bands (bounds included), the state at the end is the
    state at the start; if it is bullish the final lower band at the end is
    not below the one at the start, and if it is bearish the final upper
    band at the end is not above the one at the start. *)
Theorem supertrend_run_keeps_ratchet
    (multiplier : Q) (df : list candle) (atr : list Q) (i : nat) :
  forall (n : nat) (first last : band),
  nth_error (supertrend_bands multiplier df atr) i = Some first ->
  nth_error (supertrend_bands multiplier df atr) (i + n) = Some last ->
  (forall k prev c, (i <= k < i + n)%nat ->
     nth_error (supertrend_bands multiplier df atr) k = Some prev ->
     nth_error df (S k) = Some c ->
     (final_lower prev <= c_close c)%Q /\ (c_close c <= final_upper prev)%Q) ->
  bullish last = bullish first /\
  (bullish last = true -> (final_lower first <= final_lower last)%Q) /\
  (bullish last = false -> (final_upper last <= final_upper first)%Q).
Proof.
  induction n as [|n IH]; intros first last Hfirst Hlast Hwithin.
  - rewrite Nat.add_0_r, Hfirst in Hlast. injection Hlast as <-.
    repeat split; intros _; apply Qle_refl.
  - replace (i + S n)%nat with (S (i + n)) in Hlast by lia.
    assert (Hlen : (S (i + n) < length (supertrend_bands multiplier df atr))%nat)
      by (apply nth_error_Some; congruence).
    destruct (nth_error (supertrend_bands multiplier df atr) (i + n)) as [mid|] eqn:Hmid;
      [|apply nth_error_None in Hmid; lia].
    destruct (nth_error df (S (i + n))) as [c|] eqn:Hc;
      [|apply nth_error_None in Hc; rewrite length_supertrend_bands in Hlen; lia].
    assert (Hstep : (final_lower mid <= c_close c)%Q /\ (c_close c <= final_upper mid)%Q)
      by (apply (Hwithin (i + n)%nat mid c); [lia | exact Hmid | exact Hc]).
    destruct Hstep as [Hlo Hup].
    destruct (supertrend_ratchet_on_carry multiplier df atr (i + n) mid last c
                Hmid Hlast Hc Hlo Hup) as (Hs & Hl & Hu).
    destruct (IH first mid Hfirst eq_refl) as (Hs' & Hl' & Hu').
    { intros k prev c' Hk. apply Hwithin. lia. }
    split; [congruence|]. split; intros Hb.
    + apply Qle_trans with (final_lower mid); [apply Hl'; congruence | apply Hl; exact Hb].
    + apply Qle_trans with (final_upper mid); [apply Hu; exact Hb | apply Hu'; congruence].
Qed.

Lemma supertrend_run_keeps_ratchet_witness :
  bullish band_1 = bullish band_0 /\
  (bullish band_1 = true -> (final_lower band_0 <= final_lower band_1)%Q) /\
  (bullish band_1 = false -> (final_upper band_1 <= final_upper band_0)%Q).
Proof.
  apply (supertrend_run_keeps_ratchet 3 two_candles [5 # 3; 5 # 3] 0 1 band_0 band_1).
  - reflexivity.
  - reflexivity.
  - intros k prev c Hk Hprev Hc.
    assert (k = 0%nat) by lia. subst k.
    injection Hprev as <-. injection Hc as <-.
    split; vm_compute; discriminate.
Defined.

(** * Properties of the Upstox adapter *)

(** The adapter's own copy of the interval clock and the clock of
    trading_core return the same result, or raise the same exception, on
    every interval and every reference time: adding 1 to the number of
    intervals before or inside the multiplication makes no difference. *)
Lemma local_clock_agrees (interval_minutes : Z) (now_dt : datetime) :
  _round_to_next_interval_local interval_minutes now_dt =
  _round_to_next_interval interval_minutes now_dt.
Proof. reflexivity. Qed.

(** X16: from 09:15 on, for the naive [datetime.now()] the adapter uses
    and a positive interval, [present_interval] is the start of the
    interval in progress: it is not after the current time, the next
    boundary is after it, and they are exactly one interval apart. *)
Theorem present_interval_brackets_now
    (interval : Z) (now next_interval present : datetime) :
  DT.aware now = false ->
  0 < interval ->
  market_open <= DT.us now ->
  present_interval interval now = Ok (next_interval, present) ->
  DT.instant present <= DT.instant now /\
  DT.instant now < DT.instant next_interval /\
  DT.instant next_interval = DT.instant present + interval * DT.us_per_minute.
Proof.
  intros Hn Hi Hge. unfold present_interval.
  rewrite local_clock_agrees.
  destruct (_round_to_next_interval interval now) as [r|] eqn:Hr; cbn [rbind];
    [|discriminate].
  destruct (DT.add_minutes r (- interval)) as [p|] eqn:Hp; cbn [rbind]; [|discriminate].
  intros [= <- <-].
  apply add_minutes_instant in Hp.
  destruct (round_instant_bounds interval now r Hn Hi Hge Hr) as (H1 & H2 & _).
  lia.
Qed.

Lemma present_interval_brackets_now_witness :
  let now := DT.mk 738000 ((10 * 3600 + 2 * 60 + 30) * 1000000) false in
  DT.instant (naive_at 10 0) <= DT.instant now /\
  DT.instant now < DT.instant (naive_at 10 5) /\
  DT.instant (naive_at 10 5) = DT.instant (naive_at 10 0) + 5 * DT.us_per_minute.
Proof.
  apply (present_interval_brackets_now 5
           (DT.mk 738000 ((10 * 3600 + 2 * 60 + 30) * 1000000) false)
           (naive_at 10 5) (naive_at 10 0)).
  - reflexivity.
  - reflexivity.
  - vm_compute. discriminate.
  - vm_compute. reflexivity.
Defined.

(** ** Orders as they reach the broker *)

Section OrdersAsSent.

Context {W : Type} {E : Environment W}.
Variables (index_name : string) (interval lots : Z).

Lemma enter_orders (r : indicator_row) (positions : list position) (e : env W) :
  exists e' evs,
    enter index_name interval lots r positions e = (Ok tt, e') /\
    trace e' = trace e ++ evs /\
    forall tok q t p, In (PlaceOrder tok q t p) evs ->
      t = "BUY"%string /\ p = close_price r.
Proof.
  unfold enter.
  destruct (buy_signal r); [|destruct (sell_signal r)].
  - unfold bind at 1. unfold emit at 1. simpl.
    destruct (negb (has_ce_position positions)).
    + unfold bind at 1. unfold ask at 1. simpl.
      destruct (get_option_instrument_key _ _ _ _ _) as [[d|] w1].
      * unfold bind, tell, emit. simpl. eexists _, [_; _; _; _].
        split; [reflexivity|]. simpl. rewrite <- !app_assoc. simpl.
        split; [reflexivity|].
        intros tok q t p [H|[H|[H|[H|[]]]]]; try discriminate.
        injection H as _ _ <- <-. auto.
      * unfold ret. eexists _, [_; _].
        split; [reflexivity|]. simpl. rewrite <- !app_assoc. simpl.
        split; [reflexivity|].
        intros tok q t p [H|[H|[]]]; discriminate.
    + unfold ret. eexists _, [_]. split; [reflexivity|]. simpl.
      split; [reflexivity|]. intros tok q t p [H|[]]; discriminate.
  - unfold bind at 1. unfold emit at 1. simpl.
    destruct (negb (has_pe_position positions)).
    + unfold bind at 1. unfold ask at 1. simpl.
      destruct (get_option_instrument_key _ _ _ _ _) as [[d|] w1].
      * unfold bind, tell, emit. simpl. eexists _, [_; _; _; _].
        split; [reflexivity|]. simpl. rewrite <- !app_assoc. simpl.
        split; [reflexivity|].
        intros tok q t p [H|[H|[H|[H|[]]]]]; try discriminate.
        injection H as _ _ <- <-. auto.
      * unfold ret. eexists _, [_; _].
        split; [reflexivity|]. simpl. rewrite <- !app_assoc. simpl.
        split; [reflexivity|].
        intros tok q t p [H|[H|[]]]; discriminate.
    + unfold ret. eexists _, [_]. split; [reflexivity|]. simpl.
      split; [reflexivity|]. intros tok q t p [H|[]]; discriminate.
  - unfold ret. exists e, []. rewrite app_nil_r.
    split; [reflexivity|]. split; [reflexivity|]. intros tok q t p [].
Qed.

Lemma exit_events_orders (r : indicator_row) (positions : list position)
      (tok t : string) (q : Z) (p : Q) :
  In (PlaceOrder tok q t p) (flat_map (exit_events r) positions) ->
  t = "SELL"%string /\ p = 0%Q /\
  exists pos, In pos positions /\ tok = instrument_token pos /\ q = quantity pos /\ 0 < q.
Proof.
  rewrite in_flat_map. intros (pos & Hin & Hev).
  unfold exit_events in Hev.
  destruct (0 <? quantity pos) eqn:Hq; simpl in Hev; [|contradiction].
  destruct (exit_triggered r pos) eqn:Hx; simpl in Hev; [|contradiction].
  apply Z.ltb_lt in Hq.
  destruct Hev as [Hev|[Hev|[Hev|[]]]]; try discriminate.
  injection Hev as <- <- <- <-.
  split; [reflexivity|]. split; [reflexivity|].
  exists pos. auto.
Qed.

(** X17: every order one evaluation hands to the Upstox adapter is sent
    with a non-negative quantity, and it is either an exit, a SELL for the
    token and whole quantity of a snapshot position, sent as a MARKET
    order, or an entry, a BUY priced at the latest close, sent as a LIMIT
    order unless that close is 0. *)
Theorem orders_as_sent (r : indicator_row) (w : W)
    (tok t : string) (q : Z) (p : Q) :
  In (PlaceOrder tok q t p)
     (trace (snd (evaluate index_name interval lots r (mkEnv w [])))) ->
  let sent := _place_order_payload tok q t p in
  0 <= op_quantity sent /\
  ((op_transaction_type sent = "SELL"%string /\
    op_order_type sent = "MARKET"%string /\
    exists pos, In pos (fst (fetch_positions w)) /\
                op_instrument_token sent = instrument_token pos /\
                op_quantity sent = quantity pos) \/
   (op_transaction_type sent = "BUY"%string /\
    op_price sent = close_price r /\
    (op_order_type sent = "MARKET"%string <-> (close_price r == 0)%Q))).
Proof.
  intros Hin. cbv zeta.
  split; [apply Z.abs_nonneg|].
  revert Hin. unfold evaluate. unfold bind at 1. unfold ask. cbn [world trace].
  destruct (fetch_positions w) as [positions w1]. cbn [fst].
  unfold bind at 1.
  destruct (enter_orders r positions (mkEnv w1 ([] ++ [FetchPositions])))
    as (e1 & evs & -> & Htr & Hbuy).
  destruct (exit_loop_trace r positions e1) as [w2 ->].
  cbn [snd trace]. rewrite Htr. cbn [trace app].
  intros [Hin|Hin]; [discriminate|].
  apply in_app_or in Hin. destruct Hin as [Hin|Hin].
  - right. destruct (Hbuy _ _ _ _ Hin) as [-> ->].
    unfold _place_order_payload. cbn.
    split; [reflexivity|]. split; [reflexivity|].
    destruct (Qeq_bool (close_price r) 0) eqn:Hz.
    + apply Qeq_bool_iff in Hz. split; [intros _; exact Hz | reflexivity].
    + split; [discriminate|]. intros Hq. apply Qeq_bool_iff in Hq. congruence.
  - left. destruct (exit_events_orders _ _ _ _ _ _ Hin) as (-> & -> & pos & Hp & -> & -> & Hq).
    unfold _place_order_payload. cbn.
    split; [reflexivity|]. split; [reflexivity|].
    exists pos. split; [exact Hp|]. split; [reflexivity|]. lia.
Qed.

End OrdersAsSent.

Lemma orders_as_sent_witness :
  let sent := _place_order_payload "NSE_FO|1001" 50 "SELL" 0 in
  0 <= op_quantity sent /\
  ((op_transaction_type sent = "SELL"%string /\
    op_order_type sent = "MARKET"%string /\
    exists pos, In pos (fst (fetch_positions one_put)) /\
                op_instrument_token sent = instrument_token pos /\
                op_quantity sent = quantity pos) \/
   (op_transaction_type sent = "BUY"%string /\
    op_price sent = close_price call_row /\
    (op_order_type sent = "MARKET"%string <-> (close_price call_row == 0)%Q))).
Proof.
  apply (orders_as_sent nifty 5 1 call_row one_put "NSE_FO|1001" "SELL" 50 0).
  vm_compute. tauto.
Defined.

(** ** Option lookup *)







Lemma sorted_head_least (first : instrument_row) (rest : list instrument_row) :
  StronglySorted Z.lt (map ir_expiry (first :: rest)) ->
  forall row, In row rest -> ir_expiry first < ir_expiry row.
Proof.
  intros Hs row Hin. cbn in Hs. apply StronglySorted_inv in Hs.
  destruct Hs as [_ Hall]. rewrite Forall_forall in Hall.
  apply Hall. apply in_map. exact Hin.
Qed.

(** X19: on a frame that holds no expired contract (line 387), sorted by
    expiry (line 396) with one contract per expiry, a resolved contract
    never expires today, and no contract of the frame that expires after
    today expires before it. *)
Theorem resolved_option_is_next_expiry
    (matching : Z -> list instrument_row) (today : Z) (spot_value : Q)
    (index_name : string) (d : option_details) :
  (forall strike, StronglySorted Z.lt (map ir_expiry (matching strike))) ->
  (forall strike row, In row (matching strike) -> today <= ir_expiry row) ->
  _get_option_instrument_key_sync matching today spot_value index_name = Some d ->
  today < od_expiry_date d /\
  exists strike,
    od_strike d = inject_Z strike /\
    forall row, In row (matching strike) -> today < ir_expiry row ->
                od_expiry_date d <= ir_expiry row.
Proof.
  intros Hsorted Hfresh.
  unfold _get_option_instrument_key_sync.
  destruct (index_step index_name) as [step|]; [|discriminate].
  cbv zeta. set (strike := option_strike spot_value step).
  specialize (Hsorted strike). specialize (Hfresh strike).
  destruct (matching strike) as [|first rest] eqn:Hm; [discriminate|].
  destruct (ir_expiry first =? today) eqn:Hexp.
  - apply Z.eqb_eq in Hexp.
    destruct rest as [|second rest']; [discriminate|].
    intros [= <-]. cbn [od_expiry_date od_strike].
    pose proof (sorted_head_least first (second :: rest') Hsorted) as Hfirst.
    assert (Hrest : StronglySorted Z.lt (map ir_expiry (second :: rest'))).
    { cbn in Hsorted. apply StronglySorted_inv in Hsorted. apply Hsorted. }
    pose proof (sorted_head_least second rest' Hrest) as Hsecond.
    split.
    + specialize (Hfirst second (or_introl eq_refl)). lia.
    + exists strike. split; [reflexivity|]. rewrite Hm.
      intros row [<-|[<-|Hin]] Hafter; [lia|lia|].
      specialize (Hsecond row Hin). lia.
  - apply Z.eqb_neq in Hexp.
    intros [= <-]. cbn [od_expiry_date od_strike].
    pose proof (sorted_head_least first rest Hsorted) as Hfirst.
    pose proof (Hfresh first (or_introl eq_refl)) as Hge.
    split; [lia|].
    exists strike. split; [reflexivity|]. rewrite Hm.
    intros row [<-|Hin] Hafter; [lia|].
    specialize (Hfirst row Hin). lia.
Qed.

Lemma resolved_option_is_next_expiry_witness :
  13 < od_expiry_date (mkOptionDetails "NSE_FO|2002" 75 24550 20) /\
  exists strike,
    od_strike (mkOptionDetails "NSE_FO|2002" 75 24550 20) = inject_Z strike /\
    forall row, In row (weekly_contracts strike) -> 13 < ir_expiry row ->
                od_expiry_date (mkOptionDetails "NSE_FO|2002" 75 24550 20) <= ir_expiry row.
Proof.
  apply (resolved_option_is_next_expiry weekly_contracts 13 (24532 # 1) "NIFTY").
  - intros strike. unfold weekly_contracts. cbn.
    repeat constructor; lia.
  - intros strike row. unfold weekly_contracts.
    intros [<-|[<-|[<-|[]]]]; cbn; lia.
  - vm_compute. reflexivity.
Defined.

(** ** The latest-minute quote *)

Lemma ohlc_attempts_requests (now : datetime) (answers : nat -> quote_answer)
      (made attempts : nat) :
  (made <= snd (ohlc_attempts now answers made attempts) <= made + attempts)%nat.
Proof.
  revert made. induction attempts as [|n IH]; intros made; cbn [ohlc_attempts].
  - cbn. lia.
  - destruct (answers made) as [|code body].
    + specialize (IH (S made)). lia.
    + destruct (code =? 200).
      * destruct body as [|[prev|]].
        -- cbn. lia.
        -- destruct (po_close prev).
           ++ cbn. lia.
           ++ specialize (IH (S made)). lia.
        -- specialize (IH (S made)). lia.
      * cbn. lia.
Qed.

Lemma ohlc_attempts_unfold (now : datetime) (answers : nat -> quote_answer)
      (made remaining : nat) :
  ohlc_attempts now answers made (S remaining) =
  match answers made with
  | RequestFailed => ohlc_attempts now answers (S made) remaining
  | Answered status_code body =>
      if status_code =? 200 then
        match body with
        | NoPrev => (None, S made)
        | Prev None => ohlc_attempts now answers (S made) remaining
        | Prev (Some prev) =>
            match po_close prev with
            | None => ohlc_attempts now answers (S made) remaining
            | Some _ => (candle_of_prev now prev, S made)
            end
        end
      else (None, S made)
  end.
Proof. reflexivity. Qed.

Lemma ohlc_attempts_first_request (now : datetime) (answers : nat -> quote_answer)
      (made remaining : nat) :
  (S made <= snd (ohlc_attempts now answers made (S remaining)))%nat.
Proof.
  rewrite ohlc_attempts_unfold.
  pose proof (ohlc_attempts_requests now answers (S made) remaining) as H.
  destruct (answers made) as [|code body]; [lia|].
  destruct (code =? 200); [|cbn; lia].
  destruct body as [|[prev|]]; [cbn; lia| |lia].
  destruct (po_close prev); [cbn; lia | lia].
Qed.

Lemma candle_of_prev_time (now : datetime) (prev : prev_ohlc) (c : candle) :
  candle_of_prev now prev = Some c ->
  (is_0915 now = true -> c_datetime c = at_0914 now) /\
  (is_0915 now = false -> exists ts, po_ts prev = Some ts /\ c_datetime c = from_epoch_ms ts).
Proof.
  unfold candle_of_prev.
  destruct (is_0915 now).
  - destruct (po_open prev), (po_high prev), (po_low prev), (po_close prev);
      try discriminate.
    intros [= <-]. split; [reflexivity | discriminate].
  - destruct (po_ts prev) as [ts|]; cbn [option_map]; [|discriminate].
    destruct (po_open prev), (po_high prev), (po_low prev), (po_close prev);
      try discriminate.
    intros [= <-]. split; [discriminate|]. intros _. exists ts. auto.
Qed.

Lemma ohlc_attempts_candle (now : datetime) (answers : nat -> quote_answer)
      (made attempts : nat) (c : candle) :
  fst (ohlc_attempts now answers made attempts) = Some c ->
  exists k prev,
    (made <= k)%nat /\
    snd (ohlc_attempts now answers made attempts) = S k /\
    answers k = Answered 200 (Prev (Some prev)) /\
    candle_of_prev now prev = Some c.
Proof.
  revert made. induction attempts as [|n IH]; intros made; cbn [ohlc_attempts].
  - discriminate.
  - destruct (answers made) as [|code body] eqn:Ha.
    + intros H. destruct (IH _ H) as (k & prev & Hk & Hs & Hans & Hc).
      exists k, prev. repeat split; auto; lia.
    + destruct (code =? 200) eqn:Hcode; [|discriminate].
      apply Z.eqb_eq in Hcode. subst code.
      destruct body as [|[prev|]]; [discriminate| |].
      * destruct (po_close prev) eqn:Hclose.
        -- cbn [fst snd]. intros H. exists made, prev. repeat split; auto.
        -- intros H. destruct (IH _ H) as (k & prev' & Hk & Hs & Hans & Hc).
           exists k, prev'. repeat split; auto; lia.
      * intros H. destruct (IH _ H) as (k & prev' & Hk & Hs & Hans & Hc).
        exists k, prev'. repeat split; auto; lia.
Qed.

(** X20: one call of the latest-minute fetch makes between one and three
    requests; a status other than 200 on the first request ends it at once
    without a candle; and a candle it returns comes from the last request
    made, which answered 200 with a [prev_ohlc], and carries 09:14 of the
    current day when the call is made during the minute 09:15, and
    otherwise the Asia/Kolkata time of the answer's [ts]. *)
Theorem ohlc_fetch_is_bounded (now : datetime) (answers : nat -> quote_answer) :
  let result := _fetch_ohlc_1min_data_sync now answers in
  (1 <= snd result <= 3)%nat /\
  (forall status_code body,
     answers 0%nat = Answered status_code body -> status_code <> 200 ->
     result = (None, 1%nat)) /\
  (forall c, fst result = Some c ->
     exists k prev,
       snd result = S k /\
       answers k = Answered 200 (Prev (Some prev)) /\
       (is_0915 now = true -> c_datetime c = at_0914 now) /\
       (is_0915 now = false ->
          exists ts, po_ts prev = Some ts /\ c_datetime c = from_epoch_ms ts)).
Proof.
  cbv zeta. unfold _fetch_ohlc_1min_data_sync. split; [|split].
  - pose proof (ohlc_attempts_requests now answers 0 3) as Hub.
    pose proof (ohlc_attempts_first_request now answers 0 2) as Hlb.
    lia.
  - intros code body Ha Hne. rewrite ohlc_attempts_unfold, Ha.
    apply Z.eqb_neq in Hne. rewrite Hne. reflexivity.
  - intros c Hc.
    destruct (ohlc_attempts_candle now answers 0 3 c Hc) as (k & prev & _ & Hs & Ha & Hcp).
    exists k, prev. split; [exact Hs|]. split; [exact Ha|].
    exact (candle_of_prev_time now prev c Hcp).
Qed.

(** X21: on an aware clock, as [datetime.now(ist)] is, every candle the
    latest-minute fetch returns has an aware timestamp, so that appending
    it to a fine buffer whose tail is aware, as initialisation leaves it,
    raises no exception: the candle is appended when it is newer than the
    tail and dropped otherwise. *)
Theorem fetched_candle_appends_cleanly
    (now : datetime) (answers : nat -> quote_answer)
    (buf : list candle) (t : datetime) (c : candle) :
  DT.aware now = true ->
  tail_time buf = Some t ->
  DT.aware t = true ->
  fst (_fetch_ohlc_1min_data_sync now answers) = Some c ->
  DT.aware (c_datetime c) = true /\
  append_live buf c =
    Ok (if DT.instant t <? DT.instant (c_datetime c) then deque_append buf c else buf).
Proof.
  intros Hnow Ht Hta Hc.
  unfold _fetch_ohlc_1min_data_sync in Hc.
  destruct (ohlc_attempts_candle now answers 0 3 c Hc) as (k & prev & _ & _ & _ & Hcp).
  destruct (candle_of_prev_time now prev c Hcp) as [H15 Hts].
  assert (Haware : DT.aware (c_datetime c) = true).
  { destruct (is_0915 now).
    - rewrite (H15 eq_refl). exact Hnow.
    - destruct (Hts eq_refl) as (ts & _ & ->). reflexivity. }
  split; [exact Haware|].
  unfold append_live. rewrite Ht.
  unfold DT.gt, DT.lt. rewrite Hta, Haware. reflexivity.
Qed.

Lemma fetched_candle_appends_cleanly_witness :
  DT.aware (c_datetime (flat_candle (aware_at 9 14))) = true /\
  append_live [flat_candle (aware_at 9 14)] (flat_candle (aware_at 9 14)) =
    Ok (if DT.instant (aware_at 9 14) <? DT.instant (c_datetime (flat_candle (aware_at 9 14)))
        then deque_append [flat_candle (aware_at 9 14)] (flat_candle (aware_at 9 14))
        else [flat_candle (aware_at 9 14)]).
Proof.
  apply (fetched_candle_appends_cleanly
           (DT.mk 738000 (DT.time_of 9 15 + 20 * DT.us_per_second) true)
           (fun _ => Answered 200 (Prev (Some opening_quote)))).
  - reflexivity.
  - reflexivity.
  - reflexivity.
  - vm_compute. reflexivity.
Defined.

(** * Properties of the trade routes *)

Lemma registry_set_same (reg : registry) (key : string) (t : task) :
  registry_set reg key t key = Some t.
Proof. unfold registry_set. rewrite String.eqb_refl. reflexivity. Qed.

Lemma registry_set_other (reg : registry) (key k : string) (t : task) :
  k <> key -> registry_set reg key t k = reg k.
Proof.
  intros Hne. unfold registry_set.
  destruct (String.eqb_spec k key); [contradiction | reflexivity].
Qed.

Lemma registry_del_same (reg : registry) (key : string) :
  registry_del reg key key = None.
Proof. unfold registry_del. rewrite String.eqb_refl. reflexivity. Qed.

Lemma registry_del_other (reg : registry) (key k : string) :
  k <> key -> registry_del reg key k = reg k.
Proof.
  intros Hne. unfold registry_del.
  destruct (String.eqb_spec k key); [contradiction | reflexivity].
Qed.

Lemma upstox_has_required_methods :
  find (fun method_name => negb (hasattr UpstoxBroker method_name)) required_methods = None.
Proof. reflexivity. Qed.

(** X22: a start request never disturbs a running session.  Every task
    that is running before the request is still registered as running
    after it, the entries of all other task ids are left as they were, and
    a request for the id of a running task is refused with 409. *)
Theorem start_trade_keeps_running_sessions
    (conns : connections) (reg : registry) (request : StartTradeRequest) :
  let trade_task_id :=
    trade_task_id_of (broker_name request) (req_instrument_key_index request)
                     (req_interval request) in
  let answer := start_trade conns reg request in
  (forall k, reg k = Some Running -> snd answer k = Some Running) /\
  (forall k, k <> trade_task_id -> snd answer k = reg k) /\
  (reg trade_task_id = Some Running ->
   answer = (HTTPException 409 AlreadyRunning, reg)).
Proof.
  cbv zeta. unfold start_trade.
  set (tid := trade_task_id_of _ _ _).
  destruct (reg tid) as [[|o]|] eqn:Hreg; cbn [done negb].
  - cbn [snd]. repeat split; auto.
  - destruct (conns _) as [b|]; [|cbn [snd]; repeat split; auto; discriminate].
    destruct (find _ required_methods); cbn [snd].
    + repeat split; auto; discriminate.
    + split; [|split].
      * intros k Hk. destruct (String.eqb_spec k tid) as [->|Hne].
        -- congruence.
        -- rewrite registry_set_other by exact Hne. exact Hk.
      * intros k Hne. apply registry_set_other. exact Hne.
      * discriminate.
  - destruct (conns _) as [b|]; [|cbn [snd]; repeat split; auto; discriminate].
    destruct (find _ required_methods); cbn [snd].
    + repeat split; auto; discriminate.
    + split; [|split].
      * intros k Hk. destruct (String.eqb_spec k tid) as [->|Hne].
        -- congruence.
        -- rewrite registry_set_other by exact Hne. exact Hk.
      * intros k Hne. apply registry_set_other. exact Hne.
      * discriminate.
Qed.

(** X23: only a connected Upstox adapter can start a session.  Whenever
    the start route answers with a response rather than an error, the
    connection of the request is an Upstox one, the status is "running",
    the id is the request's task id and the registry holds a running task
    under it; a connected Angel One or Zerodha adapter lacks
    [fetch_historical_data], the first required method. *)
Theorem only_upstox_starts_sessions
    (conns : connections) (reg : registry) (request : StartTradeRequest)
    (task_id status : string) :
  fst (start_trade conns reg request) = TradeActionResponse task_id status ->
  conns (connection_key_of (broker_name request)) = Some UpstoxBroker /\
  status = "running"%string /\
  task_id = trade_task_id_of (broker_name request) (req_instrument_key_index request)
                             (req_interval request) /\
  snd (start_trade conns reg request) task_id = Some Running.
Proof.
  unfold start_trade.
  set (tid := trade_task_id_of _ _ _).
  destruct (match reg tid with Some t => negb (done t) | None => false end);
    [discriminate|].
  destruct (conns _) as [b|]; [|discriminate].
  destruct b; cbn [find hasattr]; try (vm_compute; discriminate).
  rewrite upstox_has_required_methods. cbn [fst snd].
  intros [= <- <-]. repeat split; auto. apply registry_set_same.
Qed.

Lemma only_upstox_starts_sessions_witness :
  upstox_connected (connection_key_of (broker_name nifty_request)) = Some UpstoxBroker /\
  "running"%string = "running"%string /\
  nifty_task_id =
    trade_task_id_of (broker_name nifty_request) (req_instrument_key_index nifty_request)
                     (req_interval nifty_request) /\
  snd (start_trade upstox_connected no_tasks nifty_request) nifty_task_id = Some Running.
Proof.
  apply (only_upstox_starts_sessions upstox_connected no_tasks nifty_request
           nifty_task_id "running").
  vm_compute. reflexivity.
Defined.

(** X24: the end of a session is reported once.  The first status query
    after the task is done answers "finished", "cancelled" or "failed"
    according to how it ended and removes the task; the query after that
    answers "not_running"; the entries of the other task ids are left as
    they were.  A query on a running task changes nothing. *)
Theorem finished_session_is_reported_once
    (reg : registry) (broker_name instrument_key_index : string) (interval : Z) :
  let trade_task_id := trade_task_id_of broker_name instrument_key_index interval in
  let first := get_trade_status reg broker_name instrument_key_index interval in
  let second := get_trade_status (snd first) broker_name instrument_key_index interval in
  (forall o, reg trade_task_id = Some (Done o) ->
     fst first = TradeActionResponse trade_task_id
                   (match o with
                    | Returned => "finished"
                    | Cancelled => "cancelled"
                    | Failed => "failed"
                    end)%string /\
     second = (TradeActionResponse trade_task_id "not_running", snd first)) /\
  (reg trade_task_id = Some Running ->
     first = (TradeActionResponse trade_task_id "running", reg)) /\
  (forall k, k <> trade_task_id -> snd first k = reg k).
Proof.
  cbv zeta. unfold get_trade_status.
  set (tid := trade_task_id_of _ _ _).
  destruct (reg tid) as [[|o]|] eqn:Hreg; cbn [fst snd].
  - split; [discriminate|]. split; [reflexivity|]. reflexivity.
  - rewrite registry_del_same. split; [|split].
    + intros o' [= <-]. split; reflexivity.
    + discriminate.
    + intros k Hne. apply registry_del_other. exact Hne.
  - split; [discriminate|]. split; [discriminate|]. reflexivity.
Qed.

